(** * ai-floor-analysis: request orchestration and analysis pipeline

    A shallow embedding of the client-side gateway ([ApiService],
    src/services/api.service.ts), the analysis and chat services
    (src/services/ai-analyzer.service.ts, src/services/ai-chat.service.ts),
    the analyze route and the text-to-speech route, with the properties
    the specification states about them.

    Conventions of the embedding.
    - An [async] method becomes a pure function that returns the list of
      effects it performed (timers, requests, delays, log lines), in
      order, together with its completion: [Ok v] for a resolved promise,
      [Throw t] for a rejected one.
    - The outside world (the backend behind [fetch], the completion
      provider) is an oracle [nat -> outcome]: the outcome of the call
      issued by the attempt whose [retryCount] is [n].  Theorems
      quantify over every oracle.
    - JavaScript numbers that count (retry counters) are [nat]; status
      codes, byte sizes and milliseconds are [Z]; numbers read from JSON
      are [JsNumber]. *)

From Stdlib Require Import ZArith QArith Ascii String List Bool Lia.
From stdpp Require Import base list strings.
From stdpp Require Import pretty.
From Equations Require Import Equations.
From Equations.Prop Require Import Logic.
Import ListNotations.

Set Warnings "-register-all".
Open Scope string_scope.
Open Scope list_scope.
Open Scope Z_scope.

(** ** JavaScript values *)

Module Js.

(** A number as [JSON.parse] can produce it: a finite value, or an
    infinity when the literal overflows. *)
Inductive JsNumber :=
| Finite (q : Q)
| PosInfinity
| NegInfinity.

Inductive Json :=
| JNull
| JBool (b : bool)
| JNum (n : JsNumber)
| JStr (s : string)
| JArr (items : list Json)
| JObj (members : list (string * Json)).  (* own properties, each key once *)

(** [x >= 0] and [x <= 100] on numbers. *)
Definition ge0 (n : JsNumber) : bool :=
  match n with
  | Finite q => Qle_bool 0 q
  | PosInfinity => true
  | NegInfinity => false
  end.

Definition le100 (n : JsNumber) : bool :=
  match n with
  | Finite q => Qle_bool q 100
  | PosInfinity => false
  | NegInfinity => true
  end.

(** Truthiness, the meaning of [!v] and [v || d]. *)
Definition truthy (v : Json) : bool :=
  match v with
  | JNull => false
  | JBool b => b
  | JNum (Finite q) => negb (Qeq_bool q 0)
  | JNum _ => true
  | JStr s => negb (String.eqb s "")
  | JArr _ => true
  | JObj _ => true
  end.

(** [!v] for a value that may be [undefined]. *)
Definition falsy (v : option Json) : bool :=
  match v with
  | None => true
  | Some j => negb (truthy j)
  end.

Fixpoint assoc (k : string) (ms : list (string * Json)) : option Json :=
  match ms with
  | [] => None
  | (k', v) :: rest => if String.eqb k k' then Some v else assoc k rest
  end.

(** [v.k] for a key [k] that is not a built-in member: [None] is
    [undefined], and reading a property of [null] raises a TypeError,
    which is the outer [None]. *)
Definition prop (v : Json) (k : string) : option (option Json) :=
  match v with
  | JNull => None
  | JObj ms => Some (assoc k ms)
  | _ => Some None
  end.

Fixpoint chars (s : string) : list Json :=
  match s with
  | EmptyString => []
  | String c rest => JStr (String c EmptyString) :: chars rest
  end.

(** [Object.values(v)]; [None] is the TypeError raised on [null]. *)
Definition Object_values (v : Json) : option (list Json) :=
  match v with
  | JNull => None
  | JObj ms => Some (map snd ms)
  | JArr items => Some items
  | JStr s => Some (chars s)
  | JBool _ | JNum _ => Some []
  end.

(** Completion of a try block or of an async call. *)
Inductive Result (E A : Type) :=
| Ok (a : A)
| Throw (t : E).
Arguments Ok {E A} a.
Arguments Throw {E A} t.

(** Effects in order, then the completion. *)
Definition Run (Ev E A : Type) : Type := list Ev * Result E A.

Definition ret {Ev E A} (a : A) : Run Ev E A := ([], Ok a).
Definition throw {Ev E A} (t : E) : Run Ev E A := ([], Throw t).
Definition emit {Ev E} (ev : Ev) : Run Ev E unit := ([ev], Ok tt).

Definition bind {Ev E A B} (m : Run Ev E A) (k : A -> Run Ev E B) : Run Ev E B :=
  match m with
  | (tr, Ok a) => let (tr', r) := k a in (tr ++ tr', r)
  | (tr, Throw t) => (tr, Throw t)
  end.

(** Effects [tr] happened, then [m] runs. *)
Definition after {Ev E A} (tr : list Ev) (m : Run Ev E A) : Run Ev E A :=
  (tr ++ fst m, snd m).

End Js.

Import Js.

Notation "'let*' x ':=' m 'in' k" := (bind m (fun x => k))
  (at level 10, x name, m at level 100, k at level 200).
Notation "m >> k" := (bind m (fun _ => k))
  (at level 100, k at level 200, right associativity).

(** The analysis type of src/types (floor-analysis): four numeric scores
    and a list of recommendations. *)
Inductive Priority := high | medium | low.

Record Score := {
  lighting : JsNumber;
  space : JsNumber;
  flow : JsNumber;
  accessibility : JsNumber
}.

Record Recommendation := {
  area : string;
  issue : string;
  suggestion : string;
  priority : Priority
}.

Record FloorPlanAnalysis := {
  scores : Score;
  recommendations : list Recommendation
}.

(** The object a typed analysis is at run time. *)
Definition priority_json (p : Priority) : Json :=
  JStr match p with high => "high" | medium => "medium" | low => "low" end.

Definition score_json (s : Score) : Json :=
  JObj [("lighting", JNum (lighting s)); ("space", JNum (space s));
        ("flow", JNum (flow s)); ("accessibility", JNum (accessibility s))].

Definition recommendation_json (r : Recommendation) : Json :=
  JObj [("area", JStr (area r)); ("issue", JStr (issue r));
        ("suggestion", JStr (suggestion r)); ("priority", priority_json (priority r))].

Definition analysis_json (a : FloorPlanAnalysis) : Json :=
  JObj [("scores", score_json (scores a));
        ("recommendations", JArr (map recommendation_json (recommendations a)))].

(** src/types/chat.d.ts *)
Inductive Sender := user | assistant.

Record ChatMessage := {
  id : string; (* string | number in the source; only carried along *)
  text : string;
  sender : Sender;
  timestamp : Z
}.

(** The Web API [File], as far as the code reads it. *)
Record File := {
  file_name : string;
  file_type : string; (* file.type *)
  file_size : Z       (* file.size, in bytes *)
}.

(** [s.includes(sub)] on strings. *)
Fixpoint str_includes (sub s : string) : bool :=
  String.prefix sub s ||
  match s with
  | EmptyString => false
  | String _ rest => str_includes sub rest
  end.

(** ** The client-side gateway: src/services/api.service.ts *)

Module ApiService.

(** The error objects the gateway sees: a plain [Error] (or a subclass
    that adds nothing but a name: TypeError, SyntaxError, the
    DOMException named AbortError), or its own [ApiError], which adds a
    status. *)
Inductive JsError :=
| Error_ (name message : string)
| ApiError (message : string) (status : Z).

Definition name (e : JsError) : string :=
  match e with
  | Error_ n _ => n
  | ApiError _ _ => "ApiError"
  end.

Definition message (e : JsError) : string :=
  match e with
  | Error_ _ m => m
  | ApiError m _ => m
  end.

(** What a catch clause can receive: an [Error] instance, or some other
    value. *)
Inductive Thrown :=
| ThrownError (e : JsError)
| ThrownValue (v : Json).

Definition new_Error (m : string) : Thrown := ThrownError (Error_ "Error" m).

Record ApiServiceConfig := {
  cfg_baseUrl : string;
  cfg_timeout : option Z;
  cfg_maxRetries : option nat
}.

Record ApiService := {
  baseUrl : string;
  timeout : Z;
  maxRetries : nat
}.

(** [process.env.NEXT_PUBLIC_API_URL], when set. *)
Definition constructor (env_url : option string) (config : ApiServiceConfig) : ApiService :=
  {| baseUrl :=
       if negb (String.eqb (cfg_baseUrl config) "") then cfg_baseUrl config
       else match env_url with
            | Some u => if negb (String.eqb u "") then u else "http://localhost:3000/api"
            | None => "http://localhost:3000/api"
            end;
     timeout :=
       match cfg_timeout config with
       | Some t => if t =? 0 then 30000 else t
       | None => 30000
       end;
     maxRetries :=
       match cfg_maxRetries config with
       | Some (S n) => S n
       | _ => 3%nat
       end |}.

Definition apiService (env_url : option string) : ApiService :=
  constructor env_url
    {| cfg_baseUrl := match env_url with
                      | Some u => if negb (String.eqb u "") then u else "http://localhost:3000/api"
                      | None => "http://localhost:3000/api"
                      end;
       cfg_timeout := Some 30000;
       cfg_maxRetries := Some 3%nat |}.

(** The body handed to [fetch]: a FormData with the one entry "file", or
    the object that [JSON.stringify] serialises. *)
Inductive RequestBody :=
| FormData_file (file : option File)
| Json_text (text : string)
| Json_chat (message : string) (analysis : Json) (previousMessages : list ChatMessage).

Record Request := {
  url : string;
  method : string;
  headers : list (string * string);
  body : RequestBody
}.

Inductive Event :=
| SetTimeout (ms : Z)            (* setTimeout(() => controller.abort(), ms) *)
| Fetch (req : Request)          (* fetch(url, { ..., signal }) is issued *)
| Abort                          (* the timer fires: controller.abort() *)
| ClearTimeout                   (* clearTimeout(timeoutId) *)
| Delay (ms : Z)                 (* await this.delay(ms) *)
| LogError (label : string) (t : Thrown).

(** A response whose body parses (json(), blob()) to [Some] payload, or
    fails to. *)
Record Response (D : Type) := {
  status : Z;
  payload : option D
}.
Arguments status {D} r.
Arguments payload {D} r.

(** response.ok *)
Definition ok {D} (r : Response D) : bool := (200 <=? status r) && (status r <=? 299).

(** How one [fetch] ends: the timer fires first, the promise rejects on
    its own (network failure), or a response arrives in time. *)
Inductive FetchOutcome (D : Type) :=
| TimerFires
| Rejects (e : JsError)
| Resolves (r : Response D).
Arguments TimerFires {D}.
Arguments Rejects {D} e.
Arguments Resolves {D} r.

Definition World (D : Type) : Type := nat -> FetchOutcome D.

Definition M (A : Type) : Type := Run Event Thrown A.

(** interface ApiResponse *)
Record ApiResponse := {
  parsedAnalysis : option Json;
  error : option string
}.

(** The chat endpoint's reply, [{ text }] or [{ error }]. *)
Record ChatData := {
  chat_text : string;
  chat_error : option string
}.

Definition Blob : Type := list Z.

(** [e || d] for an optional string. *)
Definition or_default (e : option string) (d : string) : string :=
  match e with
  | Some s => if String.eqb s "" then d else s
  | None => d
  end.

Definition MAX_FILE_SIZE : Z := 5 * 1024 * 1024.
Definition ALLOWED_FILE_TYPES : list string := ["image/jpeg"; "image/png"; "image/webp"].

(** Array.prototype.includes on strings and on numbers. *)
Definition includes_str (l : list string) (s : string) : bool := existsb (String.eqb s) l.
Definition includes_num (l : list Z) (n : Z) : bool := existsb (Z.eqb n) l.

Definition validateFile (file : option File) : M unit :=
  match file with
  | None => throw (new_Error "No file provided")
  | Some f =>
      if negb (includes_str ALLOWED_FILE_TYPES (file_type f)) then
        throw (new_Error "Unsupported file type. Please upload JPEG, PNG or WebP")
      else if file_size f >? MAX_FILE_SIZE then
        throw (new_Error "File is too large. Maximum size is 5MB")
      else ret tt
  end.

Definition shouldRetry (error : JsError) : bool :=
  let retryableStatuses := [408; 429; 500; 502; 503; 504] in
  match error with
  | ApiError _ status => includes_num retryableStatuses status
  | Error_ _ _ => false
  end.

Definition normalizeError (error : Thrown) : Thrown :=
  match error with
  | ThrownError e => ThrownError e
  | ThrownValue _ => new_Error "An unexpected error occurred"
  end.

Definition logError (label : string) (error : Thrown) : M unit := emit (LogError label error).

Definition delay (ms : Z) : M unit := emit (Delay ms).

(** [await fetch(...)] under the timer armed just before it. *)
Definition fetch {D} (outcome : FetchOutcome D) (req : Request) : M (Response D) :=
  emit (Fetch req) >>
  match outcome with
  | TimerFires =>
      emit Abort >>
      throw (ThrownError (Error_ "AbortError" "The operation was aborted"))
  | Rejects e => throw (ThrownError e)
  | Resolves r => ret r
  end.

(** The try block of [analyzeImage]. *)
Definition analyzeImage_try (this : ApiService) (world : World ApiResponse)
    (file : option File) (retryCount : nat) : M Json :=
  validateFile file >>
  emit (SetTimeout (timeout this)) >>
  let* response := fetch (world retryCount)
    {| url := baseUrl this +:+ "/analyze";
       method := "POST";
       headers := [("Accept", "application/json")];
       body := FormData_file file |} in
  emit ClearTimeout >>
  match payload response with
  | None => throw (ThrownError (Error_ "SyntaxError" "Unexpected token in JSON"))
  | Some data =>
      if negb (ok response) then
        throw (ThrownError (ApiError (or_default (error data) "Failed to analyze image")
                                     (status response)))
      else
        match parsedAnalysis data with
        | Some a => if truthy a then ret a else throw (new_Error "Invalid response format")
        | None => throw (new_Error "Invalid response format")
        end
  end.

(** The try block of [generateSpeech]. *)
Definition generateSpeech_try (this : ApiService) (world : World Blob)
    (text : string) (retryCount : nat) : M Blob :=
  emit (SetTimeout (timeout this)) >>
  let* response := fetch (world retryCount)
    {| url := baseUrl this +:+ "/tts";
       method := "POST";
       headers := [("Content-Type", "application/json"); ("Accept", "audio/mpeg")];
       body := Json_text text |} in
  emit ClearTimeout >>
  if negb (ok response) then
    throw (ThrownError (ApiError "Failed to generate speech" (status response)))
  else match payload response with
       | Some blob => ret blob
       | None => throw (ThrownError (Error_ "TypeError" "Failed to fetch"))
       end.

Record ChatContext := {
  analysis : Json;
  previousMessages : list ChatMessage
}.

(** [a.slice(-n)]: the elements from index [max (length a - n) 0] on. *)
Definition slice_last {A} (n : nat) (a : list A) : list A :=
  drop (length a - n)%nat a.

(** The try block of [sendChatMessage]. *)
Definition sendChatMessage_try (this : ApiService) (world : World ChatData)
    (message : string) (context : ChatContext) (retryCount : nat) : M string :=
  emit (SetTimeout (timeout this)) >>
  let* response := fetch (world retryCount)
    {| url := baseUrl this +:+ "/chat";
       method := "POST";
       headers := [("Content-Type", "application/json"); ("Accept", "application/json")];
       body := Json_chat message (analysis context)
                 (slice_last 5 (previousMessages context)) |} in
  emit ClearTimeout >>
  match payload response with
  | None => throw (ThrownError (Error_ "SyntaxError" "Unexpected token in JSON"))
  | Some data =>
      if negb (ok response) then
        throw (ThrownError (ApiError (or_default (chat_error data) "Failed to send chat message")
                                     (status response)))
      else ret (chat_text data)
  end.

(** [1000 * (retryCount + 1)] *)
Definition backoff (retryCount : nat) : Z := 1000 * (Z.of_nat retryCount + 1).

Equations? analyzeImage (this : ApiService) (world : World ApiResponse)
    (file : option File) (retryCount : nat) : M Json
    by wf (maxRetries this - retryCount)%nat lt :=
  analyzeImage this world file retryCount
    with analyzeImage_try this world file retryCount => {
    | (tr, Ok a) := (tr, Ok a);
    | (tr, Throw (ThrownError error)) with String.eqb (name error) "AbortError" => {
        | true := after tr (throw (new_Error "Request timeout"));
        | false with inspect (shouldRetry error && (retryCount <? maxRetries this)%nat) => {
            | exist _ true _ :=
                after tr (delay (backoff retryCount) >>
                          analyzeImage this world file (retryCount + 1)%nat);
            | exist _ false _ :=
                after tr (logError "Image analysis error:" (ThrownError error) >>
                          throw (normalizeError (ThrownError error))) } };
    | (tr, Throw error) :=
        after tr (logError "Image analysis error:" error >>
                  throw (normalizeError error)) }.
Proof. apply andb_prop in e as [_ H%Nat.ltb_lt]. lia. Qed.

Equations? generateSpeech (this : ApiService) (world : World Blob)
    (text : string) (retryCount : nat) : M Blob
    by wf (maxRetries this - retryCount)%nat lt :=
  generateSpeech this world text retryCount
    with generateSpeech_try this world text retryCount => {
    | (tr, Ok blob) := (tr, Ok blob);
    | (tr, Throw (ThrownError error)) with String.eqb (name error) "AbortError" => {
        | true := after tr (throw (new_Error "Request timeout"));
        | false with inspect (shouldRetry error && (retryCount <? maxRetries this)%nat) => {
            | exist _ true _ :=
                after tr (delay (backoff retryCount) >>
                          generateSpeech this world text (retryCount + 1)%nat);
            | exist _ false _ :=
                after tr (logError "Speech generation error:" (ThrownError error) >>
                          throw (normalizeError (ThrownError error))) } };
    | (tr, Throw error) :=
        after tr (logError "Speech generation error:" error >>
                  throw (normalizeError error)) }.
Proof. apply andb_prop in e as [_ H%Nat.ltb_lt]. lia. Qed.

Equations? sendChatMessage (this : ApiService) (world : World ChatData)
    (message : string) (context : ChatContext) (retryCount : nat) : M string
    by wf (maxRetries this - retryCount)%nat lt :=
  sendChatMessage this world message context retryCount
    with sendChatMessage_try this world message context retryCount => {
    | (tr, Ok data_text) := (tr, Ok data_text);
    | (tr, Throw (ThrownError error)) with String.eqb (name error) "AbortError" => {
        | true := after tr (throw (new_Error "Request timeout"));
        | false with inspect (shouldRetry error && (retryCount <? maxRetries this)%nat) => {
            | exist _ true _ :=
                after tr (delay (backoff retryCount) >>
                          sendChatMessage this world message context (retryCount + 1)%nat);
            | exist _ false _ :=
                after tr (logError "Chat message error:" (ThrownError error) >>
                          throw (normalizeError (ThrownError error))) } };
    | (tr, Throw error) :=
        after tr (logError "Chat message error:" error >>
                  throw (normalizeError error)) }.
Proof. apply andb_prop in e as [_ H%Nat.ltb_lt]. lia. Qed.

End ApiService.

(** ** The analysis service: src/services/ai-analyzer.service.ts *)

(** What a catch clause around a provider call receives: an
    [OpenAI.APIError] (its status is absent for connection failures), or
    any other [Error]. *)
Module OpenAI.

Inductive Thrown :=
| APIError (status : option Z) (message : string)
| Error_ (name message : string).

Definition new_Error (m : string) : Thrown := Error_ "Error" m.
Definition type_error (m : string) : Thrown := Error_ "TypeError" m.

Definition error_message (t : Thrown) : string :=
  match t with
  | APIError _ m => m
  | Error_ _ m => m
  end.

End OpenAI.

Module AiAnalyzerService.
Import OpenAI.

(** The text of a completion, kept with what [JSON.parse] makes of it:
    [None] when it raises a SyntaxError. *)
Record Content := {
  raw : string;
  parsed : option Json
}.

Record Message := {
  content : option Content   (* string | null *)
}.

Record Choice := {
  finish_reason : string;
  message : Message
}.

Record ChatCompletion := {
  choices : option (list Choice)
}.

(** The fields of the one request that vary or matter; the two
    instruction texts are constants of the source. *)
Record CompletionRequest := {
  model : string;
  image_url : string;
  detail : string;
  response_format : string;
  max_tokens : Z
}.

Inductive ProviderOutcome :=
| ProviderRejects (e : Thrown)
| ProviderResolves (r : ChatCompletion).

Definition World : Type := nat -> ProviderOutcome.

Inductive Event :=
| Create (req : CompletionRequest)   (* openai.chat.completions.create *)
| Delay (ms : Z)
| LoggerError (t : Thrown).

Definition M (A : Type) : Type := Run Event Thrown A.

Definition MAX_RETRIES : nat := 2.
Definition RETRY_DELAY : Z := 500.

Definition create (outcome : ProviderOutcome) (req : CompletionRequest) : M ChatCompletion :=
  emit (Create req) >>
  match outcome with
  | ProviderRejects e => throw e
  | ProviderResolves r => ret r
  end.

(** [typeof score === "number" && score >= 0 && score <= 100] *)
Definition score_ok (score : Json) : bool :=
  match score with
  | JNum n => ge0 n && le100 n
  | _ => false
  end.

Definition areaScoreValid (scores : Json) : M bool :=
  match Object_values scores with
  | None => throw (type_error "Cannot convert undefined or null to object")
  | Some values => ret (forallb score_ok values)
  end.

Definition emptyResponse : FloorPlanAnalysis :=
  {| scores := {| lighting := Finite 0; space := Finite 0;
                  flow := Finite 0; accessibility := Finite 0 |};
     recommendations := [] |}.

Definition shouldRetry (error : Thrown) : bool :=
  match error with
  | APIError (Some status) _ => (status =? 429) || (status =? 500)
  | APIError None _ => false
  | Error_ _ _ => false
  end.

Definition delay (ms : Z) : M unit := emit (Delay ms).
Definition loggerError (error : Thrown) : M unit := emit (LoggerError error).

(** [v.k], raising the TypeError of a read on [null]. *)
Definition get (v : Json) (k : string) : M (option Json) :=
  match prop v k with
  | None => throw (type_error "Cannot read properties of null")
  | Some r => ret r
  end.

(** The try block of [analyzeImage]. *)
Definition analyzeImage_try (world : World) (imageUrl : string) (retryCount : nat) : M Json :=
  let* response := create (world retryCount)
    {| model := "gpt-4o-mini";
       image_url := imageUrl;
       detail := "low";
       response_format := "json_object";
       max_tokens := 1500 |} in
  match choices response with
  | None | Some [] => throw (new_Error "No response received from OpenAI")
  | Some (choice0 :: _) =>
      if String.eqb (finish_reason choice0) "length" then
        throw (new_Error "The response is too long. Please try again.")
      else if String.eqb (finish_reason choice0) "content_filter" then
        throw (new_Error "The response was filtered due to content restrictions")
      else
        match content (message choice0) with
        | None => throw (new_Error "Empty response received")
        | Some c =>
            if String.eqb (raw c) "" then throw (new_Error "Empty response received")
            else
              match parsed c with
              | None => throw (new_Error "Invalid JSON response received")
              | Some parsedAnalysis =>
                  let* scores := get parsedAnalysis "scores" in
                  match scores with
                  | None => throw (new_Error "Invalid JSON structure")
                  | Some scores =>
                      if negb (truthy scores) then throw (new_Error "Invalid JSON structure")
                      else
                        let* recommendations := get parsedAnalysis "recommendations" in
                        if falsy recommendations then
                          throw (new_Error "Invalid JSON structure")
                        else
                          let* valid := areaScoreValid scores in
                          if negb valid then
                            throw (new_Error "Scores are outside valid range (0-100)")
                          else ret parsedAnalysis
                  end
              end
        end
  end.

Equations? analyzeImage (world : World) (imageUrl : string) (retryCount : nat) : M Json
    by wf (MAX_RETRIES - retryCount)%nat lt :=
  analyzeImage world imageUrl retryCount with analyzeImage_try world imageUrl retryCount => {
    | (tr, Ok parsedAnalysis) := (tr, Ok parsedAnalysis);
    | (tr, Throw error)
        with inspect ((retryCount <? MAX_RETRIES)%nat && shouldRetry error) => {
        | exist _ true _ :=
            after tr (delay (RETRY_DELAY * (Z.of_nat retryCount + 1)) >>
                      analyzeImage world imageUrl (retryCount + 1)%nat);
        | exist _ false _ :=
            after tr (loggerError error >> ret (analysis_json emptyResponse)) } }.
Proof. apply andb_prop in e as [H%Nat.ltb_lt _]. lia. Qed.

End AiAnalyzerService.

(** ** The chat service: src/services/ai-chat.service.ts *)

Module AiChatService.
Import OpenAI.

(** The service's own view of a chat message. *)
Record ChatMessage := {
  sender : Sender;
  text : string
}.

Record MessageParam := {
  role : string;
  content : string
}.

Record CompletionRequest := {
  model : string;
  messages : list MessageParam;
  max_tokens : Z
}.

Record Choice := {
  finish_reason : string;
  message_content : option string   (* message.content: string | null *)
}.

Record ChatCompletion := {
  choices : option (list Choice)
}.

Inductive ProviderOutcome :=
| ProviderRejects (e : Thrown)
| ProviderResolves (r : ChatCompletion).

Definition World : Type := nat -> ProviderOutcome.

Inductive Event :=
| Create (req : CompletionRequest)
| Delay (ms : Z)
| LogError (t : Thrown).

Definition M (A : Type) : Type := Run Event Thrown A.

Record Context := {
  analysis : Json;
  previousMessages : list ChatMessage
}.

Definition MAX_RETRIES : nat := 3.
Definition RETRY_DELAY : Z := 1000.

Definition create (outcome : ProviderOutcome) (req : CompletionRequest) : M ChatCompletion :=
  emit (Create req) >>
  match outcome with
  | ProviderRejects e => throw e
  | ProviderResolves r => ret r
  end.

Definition formatPreviousMessages (messages : list ChatMessage) : list MessageParam :=
  map (fun msg =>
         {| role := match sender msg with user => "user" | assistant => "assistant" end;
            content := text msg |})
      messages.

Definition shouldRetry (error : Thrown) : bool :=
  match error with
  | APIError (Some status) _ => (status =? 429) || (status >=? 500)
  | APIError None _ => false
  | Error_ _ _ => false
  end.

Definition delay (ms : Z) : M unit := emit (Delay ms).
Definition logError (error : Thrown) : M unit := emit (LogError error).

Section Stringify.

(** [JSON.stringify(v, null, 2)], the platform's serialiser. *)
Variable JSON_stringify : Json -> string.

Definition createSystemPrompt (analysis : Json) : string :=
  "You are an expert in analyzing floor plans, analyzing the following plan:

    Floor plan analysis:
    " +:+ JSON_stringify analysis +:+ "

    Answer the user's questions ONLY in the context of this plan and the provided analysis.
    If the question is not related to the plan or analysis, politely redirect the conversation back to the plan topic.
    
    Use specific data from the analysis in your answers:
    - Refer to specific assessments (lighting, space, etc.)
    - Mention specific recommendations for rooms
    - Give practical advice based on the analysis".

(** The argument of [openai.chat.completions.create]. *)
Definition request (message : string) (context : Context) : CompletionRequest :=
  {| model := "gpt-4o";
     messages :=
       [ {| role := "system"; content := createSystemPrompt (analysis context) |} ]
       ++ formatPreviousMessages (previousMessages context)
       ++ [ {| role := "user"; content := message |} ];
     max_tokens := 2000 |}.

(** The try block of [generateResponse]. *)
Definition generateResponse_try (world : World) (message : string) (context : Context)
    (retryCount : nat) : M string :=
  let* response := create (world retryCount) (request message context) in
  match choices response with
  | None | Some [] => throw (new_Error "No response received from OpenAI")
  | Some (choice0 :: _) =>
      if String.eqb (finish_reason choice0) "length" then
        throw (new_Error "The response is too long")
      else if String.eqb (finish_reason choice0) "content_filter" then
        throw (new_Error "The response was filtered")
      else
        match message_content choice0 with
        | None => throw (new_Error "Empty response received")
        | Some content =>
            if String.eqb content "" then throw (new_Error "Empty response received")
            else ret content
        end
  end.

Equations? generateResponse (world : World) (message : string) (context : Context)
    (retryCount : nat) : M string by wf (MAX_RETRIES - retryCount)%nat lt :=
  generateResponse world message context retryCount
    with generateResponse_try world message context retryCount => {
    | (tr, Ok content) := (tr, Ok content);
    | (tr, Throw error)
        with inspect ((retryCount <? MAX_RETRIES)%nat && shouldRetry error) => {
        | exist _ true _ :=
            after tr (delay (RETRY_DELAY * (Z.of_nat retryCount + 1)) >>
                      generateResponse world message context (retryCount + 1)%nat);
        | exist _ false _ := after tr (logError error >> throw error) } }.
Proof. apply andb_prop in e as [H%Nat.ltb_lt _]. lia. Qed.

End Stringify.

End AiChatService.

(** ** The analyze route (POST /api/analyze) *)

Module AnalyzeRoute.
Import OpenAI.

Record Request := {
  content_type : option string;        (* req.headers.get("Content-Type") *)
  form_file : option (option File)     (* formData.get("file"); [None] when req.formData() rejects *)
}.

Inductive Body :=
| error_body (error : string)
| analysis_body (parsedAnalysis : Json).

Record Response := {
  body : Body;
  status : Z
}.

Inductive Event :=
| LogProcessing (file : File)
| Analyzer (ev : AiAnalyzerService.Event)
| ConsoleError (message : string).

Definition MAX_FILE_SIZE : Z := 5 * 1024 * 1024.
Definition ALLOWED_FILE_TYPES : list string := ["image/jpeg"; "image/png"; "image/webp"].

Definition includes_str (l : list string) (s : string) : bool := existsb (String.eqb s) l.

Section Route.

(** [process.env.NODE_ENV === 'development'] *)
Variable development : bool.
(** [Buffer.from(await file.arrayBuffer()).toString("base64")] *)
Variable base64 : File -> string.

(** The catch clause of the handler. *)
Definition on_error (message : string) : list Event * Response :=
  ([ConsoleError message],
   {| body := error_body (if development then message
                          else "An error occurred while processing your request");
      status := if str_includes "Analysis timeout" message then 504 else 500 |}).

Definition POST (world : AiAnalyzerService.World) (req : Request) : list Event * Response :=
  if negb (match content_type req with
           | Some ct => str_includes "multipart/form-data" ct
           | None => false
           end) then
    ([], {| body := error_body "Content type must be multipart/form-data"; status := 400 |})
  else
    match form_file req with
    | None => on_error "Failed to parse body as FormData."
    | Some None => ([], {| body := error_body "No file uploaded"; status := 400 |})
    | Some (Some file) =>
        if negb (includes_str ALLOWED_FILE_TYPES (file_type file)) then
          ([], {| body := error_body ("File type " +:+ file_type file +:+
                                      " not supported. Please upload JPEG, PNG or WebP");
                  status := 415 |})
        else if file_size file >? MAX_FILE_SIZE then
          ([], {| body := error_body "File size too large. Maximum size is 5MB";
                  status := 413 |})
        else
          let imageUrl := "data:" +:+ file_type file +:+ ";base64," +:+ base64 file in
          let (tr, r) := AiAnalyzerService.analyzeImage world imageUrl 0 in
          match r with
          | Ok parsedAnalysis =>
              (LogProcessing file :: map Analyzer tr,
               {| body := analysis_body parsedAnalysis; status := 200 |})
          | Throw error =>
              let (tr', resp) := on_error (error_message error) in
              (LogProcessing file :: map Analyzer tr ++ tr', resp)
          end
    end.

End Route.

End AnalyzeRoute.

(** ** The text-to-speech route: draining the provider's stream *)

Module TtsRoute.

(** A chunk is a Uint8Array; the stream is the chunks it still holds. *)
Definition Chunk : Type := list Byte.byte.
Definition ReadableStream : Type := list Chunk.

(** The read loop: [reader.read()] hands out the next chunk, or reports
    [done] when none is left. *)
Fixpoint read_all (reader : ReadableStream) (chunks : list Chunk) : list Chunk :=
  match reader with
  | [] => chunks                                         (* done: break *)
  | value :: rest => read_all rest (chunks ++ [value])   (* chunks.push(value) *)
  end.

(** [new Uint8Array(n)]: [n] zero bytes. *)
Definition Uint8Array_new (n : nat) : list Byte.byte := replicate n Byte.x00.

(** [target.set(source, offset)]; [None] is the RangeError raised when
    the source does not fit. *)
Definition Uint8Array_set (target source : list Byte.byte) (offset : nat)
  : option (list Byte.byte) :=
  if (offset + length source <=? length target)%nat then
    Some (take offset target ++ source ++ drop (offset + length source) target)
  else None.

(** The copy loop, [for (const chunk of chunks)]. *)
Fixpoint copy_chunks (chunks : list Chunk) (concatenated : list Byte.byte) (offset : nat)
  : option (list Byte.byte) :=
  match chunks with
  | [] => Some concatenated
  | chunk :: rest =>
      match Uint8Array_set concatenated chunk offset with
      | Some concatenated' => copy_chunks rest concatenated' (offset + length chunk)
      | None => None
      end
  end.

Definition getAudioBuffer (response : ReadableStream) : option (list Byte.byte) :=
  let chunks := read_all response [] in
  let concatenated :=
    Uint8Array_new (fold_left (fun acc chunk => acc + length chunk)%nat chunks 0%nat) in
  copy_chunks chunks concatenated 0.

End TtsRoute.

(** ** Vocabulary of the statements about the gateway *)

Module ApiPolicy.
Import ApiService.

(** The catch clause that the three operations share, applied to the
    effects [tr] of the failed try block, the value [t] it threw and the
    re-issued call [again]. *)
Definition catch_clause {A} (this : ApiService) (label : string) (retryCount : nat)
    (tr : list Event) (t : Thrown) (again : M A) : M A :=
  match t with
  | ThrownError error =>
      if String.eqb (name error) "AbortError" then
        after tr (throw (new_Error "Request timeout"))
      else if shouldRetry error && (retryCount <? maxRetries this)%nat then
        after tr (delay (backoff retryCount) >> again)
      else after tr (logError label t >> throw (normalizeError t))
  | ThrownValue _ => after tr (logError label t >> throw (normalizeError t))
  end.

(** An operation, seen as a function of [retryCount], runs its try block
    and hands a failure to the catch clause. *)
Definition retry_loop {A} (this : ApiService) (label : string)
    (op_try op : nat -> M A) : Prop :=
  forall retryCount,
    op retryCount =
    match op_try retryCount with
    | (tr, Ok a) => (tr, Ok a)
    | (tr, Throw t) => catch_clause this label retryCount tr t (op (retryCount + 1)%nat)
    end.

Definition retryable_status (status : Z) : Prop :=
  status = 408 \/ status = 429 \/ status = 500 \/
  status = 502 \/ status = 503 \/ status = 504.

(** The failure carries a retryable status code. *)
Definition carries_retryable_status (t : Thrown) : Prop :=
  exists msg status, t = ThrownError (ApiError msg status) /\ retryable_status status.

Definition is_abort (t : Thrown) : Prop :=
  exists error, t = ThrownError error /\ name error = "AbortError".

(** The waits and the requests of a run, in order. *)
Fixpoint delays (tr : list Event) : list Z :=
  match tr with
  | [] => []
  | Delay ms :: rest => ms :: delays rest
  | _ :: rest => delays rest
  end.

Fixpoint fetches (tr : list Event) : list Request :=
  match tr with
  | [] => []
  | Fetch req :: rest => req :: fetches rest
  | _ :: rest => fetches rest
  end.

(** After the effects [tr] of a failed attempt the run goes on with a
    wait: the attempt is retried. *)
Definition retried_after {A} (tr : list Event) (m : M A) : Prop :=
  exists ms rest, fst m = tr ++ Delay ms :: rest.

(** The retry policy of one operation [op], whose try block is
    [op_try]. *)
Definition retry_policy {A} (this : ApiService) (label : string)
    (op_try op : nat -> M A) : Prop :=
  (forall retryCount tr t,
      op_try retryCount = (tr, Throw t) ->
      (* retried exactly on a retryable status with retries left *)
      (retried_after tr (op retryCount) <->
       carries_retryable_status t /\ (retryCount < maxRetries this)%nat)
      (* the wait is 1000 * (n + 1), then attempt n + 1 is issued *)
      /\ (carries_retryable_status t -> (retryCount < maxRetries this)%nat ->
          op retryCount =
          (tr ++ Delay (1000 * (Z.of_nat retryCount + 1)) :: fst (op (S retryCount)),
           snd (op (S retryCount))))
      (* any other failure propagates at once *)
      /\ (~ (carries_retryable_status t /\ (retryCount < maxRetries this)%nat) ->
          ~ is_abort t ->
          op retryCount = (tr ++ [LogError label t], Throw (normalizeError t))))
  (* a whole call waits 1s, 2s, 3s, ..., at most maxRetries times *)
  /\ (exists k, (k <= maxRetries this)%nat
        /\ delays (fst (op 0%nat)) =
           map (fun n => 1000 * (Z.of_nat n + 1)) (seq 0 k)
        /\ (length (fetches (fst (op 0%nat))) <= k + 1)%nat).

(** Data of the scenarios run in the examples. *)
Definition service3 : ApiService :=
  {| baseUrl := "http://localhost:3000/api"; timeout := 30000; maxRetries := 3 |}.

Definition a_jpeg : File :=
  {| file_name := "plan.jpg"; file_type := "image/jpeg"; file_size := 204800 |}.

Definition always (status : Z) : World ApiResponse :=
  fun _ => Resolves {| status := status;
                       payload := Some {| parsedAnalysis := None; error := Some "failed" |} |}.

Definition msg (n : Z) : ChatMessage :=
  {| id := "m"; text := "t"; sender := user; timestamp := n |}.

Definition seven_messages : ChatContext :=
  {| analysis := JNull; previousMessages := map msg [1; 2; 3; 4; 5; 6; 7] |}.

Definition a_gif : File :=
  {| file_name := "plan.gif"; file_type := "image/gif"; file_size := 1024 |}.

Definition six_mib_jpeg : File :=
  {| file_name := "big.jpg"; file_type := "image/jpeg"; file_size := 6 * 1024 * 1024 |}.

End ApiPolicy.

(** ** Vocabulary of the statements about the analysis service *)

Module AnalyzerPolicy.
Import OpenAI AiAnalyzerService.

(** The all-zero analysis, written out. *)
Definition sentinel : Json :=
  JObj [("scores", JObj [("lighting", JNum (Finite 0)); ("space", JNum (Finite 0));
                         ("flow", JNum (Finite 0)); ("accessibility", JNum (Finite 0))]);
        ("recommendations", JArr [])].

(** The request that every attempt sends for [imageUrl]. *)
Definition the_request (imageUrl : string) : CompletionRequest :=
  {| model := "gpt-4o-mini"; image_url := imageUrl; detail := "low";
     response_format := "json_object"; max_tokens := 1500 |}.

(** A provider API error with status 429 or 500. *)
Definition provider_retryable (t : Thrown) : Prop :=
  exists msg status, t = APIError (Some status) msg /\ (status = 429 \/ status = 500).

Fixpoint delays (tr : list Event) : list Z :=
  match tr with
  | [] => []
  | Delay ms :: rest => ms :: delays rest
  | _ :: rest => delays rest
  end.

Fixpoint creates (tr : list Event) : list CompletionRequest :=
  match tr with
  | [] => []
  | Create req :: rest => req :: creates rest
  | _ :: rest => creates rest
  end.

Definition retried_after {A} (tr : list Event) (m : M A) : Prop :=
  exists ms rest, fst m = tr ++ Delay ms :: rest.

(** A number in the closed range [0, 100]. *)
Definition in_range (n : JsNumber) : Prop :=
  exists q, n = Finite q /\ (0 <= q)%Q /\ (q <= 100)%Q.

(** The value has a scores object in which each of the four named scores
    is a number in [0, 100]. *)
Definition four_scores_in_range (v : Json) : Prop :=
  exists s, prop v "scores" = Some (Some s)
    /\ forall k, In k ["lighting"; "space"; "flow"; "accessibility"] ->
        exists n, prop s k = Some (Some (JNum n)) /\ in_range n.

(** The ways a first choice can be unusable: cut short, filtered, empty,
    not JSON, without one of the two required fields, or with a score
    that is not a number in [0, 100]. *)
Inductive invalid_choice (c : Choice) : Prop :=
| cut_short : finish_reason c = "length" -> invalid_choice c
| filtered : finish_reason c = "content_filter" -> invalid_choice c
| null_content : content (message c) = None -> invalid_choice c
| empty_content t : content (message c) = Some t -> raw t = "" -> invalid_choice c
| unparseable t : content (message c) = Some t -> parsed t = None -> invalid_choice c
| no_scores t j :
    content (message c) = Some t -> parsed t = Some j ->
    prop j "scores" = Some None -> invalid_choice c
| no_recommendations t j :
    content (message c) = Some t -> parsed t = Some j ->
    prop j "recommendations" = Some None -> invalid_choice c
| score_not_in_range t j s values v :
    content (message c) = Some t -> parsed t = Some j ->
    prop j "scores" = Some (Some s) -> Object_values s = Some values ->
    In v values -> (forall n, v = JNum n -> ~ in_range n) -> invalid_choice c.

Inductive invalid_response (r : ChatCompletion) : Prop :=
| no_choices : choices r = None \/ choices r = Some [] -> invalid_response r
| bad_choice c rest : choices r = Some (c :: rest) -> invalid_choice c -> invalid_response r.

(** A string holding one double-quote character, and a quoted key. *)
Definition dq : string := String "034"%char EmptyString.
Definition quoted (s : string) : string := dq +:+ s +:+ dq.

(** A reply whose scores object names only one of the four scores:
    the text { "scores": { "lighting": 50 }, "recommendations": [] }. *)
Definition one_score_reply : ChatCompletion :=
  {| choices :=
       Some [ {| finish_reason := "stop";
                 message :=
                   {| content :=
                        Some {| raw := "{" +:+ quoted "scores" +:+ ":{" +:+ quoted "lighting"
                                       +:+ ":50}," +:+ quoted "recommendations" +:+ ":[]}";
                                parsed :=
                                  Some (JObj [("scores", JObj [("lighting", JNum (Finite 50))]);
                                              ("recommendations", JArr [])]) |} |} |} ] |}.

(** Data of the scenarios run in the examples. *)
Definition a_png_url : string := "data:image/png;base64,iVBORw0KGgo=".

Definition rate_limited : World := fun _ => ProviderRejects (APIError (Some 429) "Rate limit").

Definition filtered_reply : ChatCompletion :=
  {| choices := Some [ {| finish_reason := "content_filter";
                          message := {| content := None |} |} ] |}.

End AnalyzerPolicy.

(** ** Vocabulary of the statements about the chat service *)

Module ChatPolicy.
Import AiChatService.

Fixpoint creates (tr : list Event) : list CompletionRequest :=
  match tr with
  | [] => []
  | Create req :: rest => req :: creates rest
  | _ :: rest => creates rest
  end.

(** [s] occurs in [t] verbatim. *)
Definition substring_of (s t : string) : Prop :=
  exists before after, t = before +:+ s +:+ after.

(** The context of the grounding scenario. *)
Definition kitchen_context : Context :=
  {| analysis :=
       JObj [("scores", JObj [("lighting", JNum (Finite 40))]);
             ("recommendations",
              JArr [JObj [("area", JStr "kitchen"); ("issue", JStr "dark");
                          ("suggestion", JStr "add lighting"); ("priority", JStr "high")]])];
     previousMessages := [ {| sender := assistant; text := "Hi" |} ] |}.

End ChatPolicy.

(** ** Vocabulary of the further statements about the chat service *)

Module ChatRetry.
Import OpenAI AiChatService.

(** A provider API error with status 429 or a status from 500 up. *)
Definition chat_retryable (t : Thrown) : Prop :=
  exists msg status, t = APIError (Some status) msg /\ (status = 429 \/ 500 <= status).

Fixpoint delays (tr : list Event) : list Z :=
  match tr with
  | [] => []
  | Delay ms :: rest => ms :: delays rest
  | _ :: rest => delays rest
  end.

Definition retried_after {A} (tr : list Event) (m : M A) : Prop :=
  exists ms rest, fst m = tr ++ Delay ms :: rest.

(** The replies that generateResponse refuses, each with the message of
    the error it raises: no choice at all, a first choice cut short, a
    first choice filtered, a first choice without text. *)
Inductive refused_reply (r : ChatCompletion) : string -> Prop :=
| refused_no_choice :
    choices r = None \/ choices r = Some [] ->
    refused_reply r "No response received from OpenAI"
| refused_length c rest :
    choices r = Some (c :: rest) -> finish_reason c = "length" ->
    refused_reply r "The response is too long"
| refused_filter c rest :
    choices r = Some (c :: rest) -> finish_reason c = "content_filter" ->
    refused_reply r "The response was filtered"
| refused_empty c rest :
    choices r = Some (c :: rest) ->
    finish_reason c <> "length" -> finish_reason c <> "content_filter" ->
    message_content c = None \/ message_content c = Some "" ->
    refused_reply r "Empty response received".

(** Data of the scenarios run in the examples. *)
Definition overloaded : World :=
  fun _ => ProviderRejects (APIError (Some 503) "Service unavailable").

Definition truncated_reply : ChatCompletion :=
  {| choices := Some [ {| finish_reason := "length"; message_content := Some "The kit" |} ] |}.

Definition good_reply : ChatCompletion :=
  {| choices := Some [ {| finish_reason := "stop";
                          message_content := Some "Add a window." |} ] |}.

End ChatRetry.

(** ** The chat route (POST /api/chat): src/app/api/chat/route.ts *)

Module ChatRoute.
Import OpenAI.

(** The parsed body of the request, [{ message, context }]; a field may
    be absent. *)
Record RequestBody := {
  message : option string;
  context : option AiChatService.Context
}.

Inductive Body :=
| error_body (error : string)
| text_body (text : string).

Record Response := {
  body : Body;
  status : Z
}.

Inductive Event :=
| Service (ev : AiChatService.Event)
| ConsoleError (t : Thrown).        (* console.error("Chat API Error:", error) *)

Section Route.
Variable JSON_stringify : Json -> string.

(** The catch clause of the handler. *)
Definition on_error (error : Thrown) : list Event * Response :=
  ([ConsoleError error],
   {| body := error_body "Failed to process chat message."; status := 500 |}).

(** [json] is what [req.json()] resolves to, [None] when it rejects. *)
Definition POST (world : AiChatService.World) (json : option RequestBody)
  : list Event * Response :=
  match json with
  | None => on_error (Error_ "SyntaxError" "Unexpected end of JSON input")
  | Some parsed =>
      match message parsed with
      | None => ([], {| body := error_body "Message is required"; status := 400 |})
      | Some message =>
          if String.eqb message "" then
            ([], {| body := error_body "Message is required"; status := 400 |})
          else
            match context parsed with
            | None => ([], {| body := error_body "Context is required"; status := 400 |})
            | Some context =>
                let (tr, r) :=
                  AiChatService.generateResponse JSON_stringify world message context 0 in
                match r with
                | Ok assistantMessage =>
                    (map Service tr, {| body := text_body assistantMessage; status := 200 |})
                | Throw error =>
                    let (tr', resp) := on_error error in
                    (map Service tr ++ tr', resp)
                end
            end
      end
  end.

End Route.

(** The provider calls among the effects of the route. *)
Fixpoint provider_calls (tr : list Event) : list AiChatService.CompletionRequest :=
  match tr with
  | [] => []
  | Service (AiChatService.Create req) :: rest => req :: provider_calls rest
  | _ :: rest => provider_calls rest
  end.

End ChatRoute.

(** ** Vocabulary of the further statements about the analyze route *)

Module AnalyzeRoutePolicy.
Import AnalyzeRoute.

(** The request says it carries a multipart form. *)
Definition multipart (req : Request) : Prop :=
  exists ct, content_type req = Some ct /\ str_includes "multipart/form-data" ct = true.

(** The provider calls among the effects of the route. *)
Fixpoint provider_calls (tr : list Event) : list AiAnalyzerService.CompletionRequest :=
  match tr with
  | [] => []
  | Analyzer (AiAnalyzerService.Create req) :: rest => req :: provider_calls rest
  | _ :: rest => provider_calls rest
  end.

(** Data of the scenarios run in the examples. *)
Definition exactly_5_mib : File :=
  {| file_name := "plan.png"; file_type := "image/png"; file_size := 5 * 1024 * 1024 |}.

Definition upload_of (f : File) : Request :=
  {| content_type := Some "multipart/form-data; boundary=----form";
     form_file := Some (Some f) |}.

End AnalyzeRoutePolicy.

(** ** Vocabulary of the further statements about the gateway *)

Module GatewayPolicy.
Import ApiService.

(** Every request of the run is issued right after a timer of [ms]
    milliseconds is armed, and no timer is armed for anything else. *)
Inductive timed_run (ms : Z) : list Event -> Prop :=
| timed_done : timed_run ms []
| timed_fetch req rest :
    timed_run ms rest -> timed_run ms (SetTimeout ms :: Fetch req :: rest)
| timed_abort rest : timed_run ms rest -> timed_run ms (Abort :: rest)
| timed_clear rest : timed_run ms rest -> timed_run ms (ClearTimeout :: rest)
| timed_delay d rest : timed_run ms rest -> timed_run ms (Delay d :: rest)
| timed_log label t rest : timed_run ms rest -> timed_run ms (LogError label t :: rest).

(** The milliseconds a run spends waiting between attempts. *)
Definition total_wait (tr : list Event) : Z :=
  fold_right Z.add 0 (ApiPolicy.delays tr).

(** Data of the scenarios run in the examples. *)
Definition no_retries_wanted : ApiServiceConfig :=
  {| cfg_baseUrl := ""; cfg_timeout := Some 0; cfg_maxRetries := Some 0%nat |}.


Definition served (a : Json) : World ApiResponse :=
  fun _ => Resolves {| status := 200;
                       payload := Some {| parsedAnalysis := Some a; error := None |} |}.

End GatewayPolicy.

(** ** The text-to-speech route (POST /api/tts): the handler *)

Module TtsPost.
Import TtsRoute.

Record SpeakOptions := {
  model : string;
  encoding : string;
  container : string
}.

(** How [deepgram.speak.request] ends: it rejects, or it resolves to a
    response whose [getStream()] is a stream or null. *)
Inductive SpeakOutcome :=
| SpeakRejects (message : string)
| SpeakResolves (stream : option ReadableStream).

Inductive Event :=
| Speak (text : option string) (options : SpeakOptions)
| ConsoleError (message : string).     (* console.error("TTS API error:", error) *)

Inductive Response :=
| Audio (body : list Byte.byte) (headers : list (string * string))
| JsonError (error : string) (status : Z).

(** The catch clause of the handler. *)
Definition on_error (message : string) : list Event * Response :=
  ([ConsoleError message], JsonError "Failed to generate speech" 500).

(** [json] is what [request.json()] resolves to, with its [text] field
    if it has one; [None] when it rejects. *)
Definition POST (json : option (option string)) (outcome : SpeakOutcome)
  : list Event * Response :=
  match json with
  | None => on_error "Unexpected end of JSON input"
  | Some text =>
      let speak :=
        Speak text {| model := "aura-asteria-en"; encoding := "linear16";
                      container := "wav" |} in
      match outcome with
      | SpeakRejects message => (speak :: fst (on_error message), snd (on_error message))
      | SpeakResolves None =>
          (speak :: fst (on_error "Failed to generate audio stream"),
           snd (on_error "Failed to generate audio stream"))
      | SpeakResolves (Some stream) =>
          match getAudioBuffer stream with
          | None =>
              (speak :: fst (on_error "offset is out of bounds"),
               snd (on_error "offset is out of bounds"))
          | Some buffer =>
              ([speak],
               Audio buffer [("Content-Type", "audio/wav");
                             ("Content-Length", pretty (length buffer))])
          end
      end
  end.

End TtsPost.

(** ** Vocabulary of the further statements about the analysis service *)

Module AnalyzerReplies.
Import AiAnalyzerService AnalyzerPolicy.

(** The four scores of a typed analysis are numbers in [0, 100]. *)
Definition scores_in_range (a : FloorPlanAnalysis) : Prop :=
  in_range (lighting (scores a)) /\ in_range (space (scores a))
  /\ in_range (flow (scores a)) /\ in_range (accessibility (scores a)).

(** Data of the scenarios run in the examples. *)
Definition a_fair_plan : FloorPlanAnalysis :=
  {| scores := {| lighting := Finite 72; space := Finite 100;
                  flow := Finite 0; accessibility := Finite (911 # 10) |};
     recommendations :=
       [ {| area := "Kitchen"; issue := "Dark corner"; suggestion := "Add a window";
            priority := high |} ] |}.

Definition reply_of (a : FloorPlanAnalysis) : ChatCompletion :=
  {| choices :=
       Some [ {| finish_reason := "stop";
                 message := {| content := Some {| raw := "{...}";
                                                  parsed := Some (analysis_json a) |} |} |} ] |}.

End AnalyzerReplies.

(** ** The upload area: validateFile of the UploadArea component *)

Module UploadArea.

Record Props := {
  maxSizeMB : Z;
  allowedTypes : list string
}.

(** The defaults of the props; the page passes neither. *)
Definition defaults : Props :=
  {| maxSizeMB := 10;
     allowedTypes := ["image/jpeg"; "image/png"; "application/pdf"] |}.

(** [s.split("/")] *)
Fixpoint split_slash (s : string) : list string :=
  match s with
  | EmptyString => [EmptyString]
  | String c rest =>
      if Ascii.eqb c "/" then EmptyString :: split_slash rest
      else match split_slash rest with
           | seg :: segs => String c seg :: segs
           | [] => [String c EmptyString]
           end
  end.

(** [type.split("/")[1]] as [join] renders it: nothing when absent. *)
Definition subtype (type : string) : string := nth 1 (split_slash type) "".

(** The result of validateFile and the message it hands to
    setUploadError, if any. *)
Definition validateFile (props : Props) (file : File) : bool * option string :=
  if negb (existsb (String.eqb (file_type file)) (allowedTypes props)) then
    (false,
     Some ("Invalid file type. Please upload "
           +:+ String.concat ", " (map subtype (allowedTypes props)) +:+ " files."))
  else if file_size file >? maxSizeMB props * 1024 * 1024 then
    (false, Some ("File is too large. Maximum size is " +:+ pretty (maxSizeMB props) +:+ "MB."))
  else (true, None).

End UploadArea.

(** ** The page: handleUpload and handleReset of the Home component *)

Module Page.

Inductive Tab := upload_tab | analysis_tab.

Record State := {
  uploadedFile : option File;
  imageUrl : option string;
  activeTab : Tab;
  analysis : option Json;
  isAnalyzing : bool;
  isUploaded : bool
}.

Inductive Event :=
| CreateObjectURL (file : File)
| RevokeObjectURL (url : string)
| Gateway (ev : ApiService.Event)
| ToastError (message : string)
| ConsoleError (t : ApiService.Thrown).   (* console.error("Error uploading file:", error) *)

Section Handlers.

(** Whether a string or an array, converted to a number, exceeds 0:
    the platform's conversion, not spelled out here. *)
Variable converted_gt0 : Json -> bool.

(** [score > 0] *)
Definition gt0 (score : Json) : bool :=
  match score with
  | JNum (Finite q) => negb (Qle_bool q 0)
  | JNum PosInfinity => true
  | JNum NegInfinity => false
  | JBool b => b
  | JNull => false
  | JObj _ => false
  | JStr _ | JArr _ => converted_gt0 score
  end.

(** [Object.values(parsedAnalysis.scores).some(score => score > 0)];
    [None] is the TypeError raised when there is no scores object. *)
Definition isValidFloorPlan (parsedAnalysis : Json) : option bool :=
  match prop parsedAnalysis "scores" with
  | Some (Some scores) =>
      match Object_values scores with
      | Some values => Some (existsb gt0 values)
      | None => None
      end
  | _ => None
  end.

(** [url] is what [URL.createObjectURL(file)] returns; [gateway] is
    [apiService.analyzeImage]. *)
Definition handleUpload (st : State) (url : string)
    (gateway : File -> ApiService.M Json) (file : option File) : list Event * State :=
  match file with
  | None => ([], st)
  | Some file =>
      let started :=
        {| uploadedFile := Some file; imageUrl := Some url; activeTab := activeTab st;
           analysis := analysis st; isAnalyzing := true; isUploaded := true |} in
      let failed (t : ApiService.Thrown) :=
        ([ConsoleError t],
         {| uploadedFile := uploadedFile started; imageUrl := imageUrl started;
            activeTab := activeTab started; analysis := analysis started;
            isAnalyzing := false; isUploaded := isUploaded started |}) in
      let (tr, r) := gateway file in
      let (tr', st') :=
        match r with
        | Throw t => failed t
        | Ok parsedAnalysis =>
            match isValidFloorPlan parsedAnalysis with
            | None =>
                failed (ApiService.ThrownError
                          (ApiService.Error_ "TypeError"
                             "Cannot convert undefined or null to object"))
            | Some false =>
                (ToastError "The uploaded image is not a floor plan. Please try again with a valid floor plan image."
                   :: (if String.eqb url "" then [] else [RevokeObjectURL url]),
                 {| uploadedFile := None; imageUrl := None; activeTab := upload_tab;
                    analysis := None; isAnalyzing := false; isUploaded := false |})
            | Some true =>
                ([],
                 {| uploadedFile := Some file; imageUrl := Some url;
                    activeTab := analysis_tab; analysis := Some parsedAnalysis;
                    isAnalyzing := false; isUploaded := true |})
            end
        end in
      (CreateObjectURL file :: map Gateway tr ++ tr', st')
  end.

End Handlers.

(** The toasts among the effects. *)
Fixpoint toasts (tr : list Event) : list string :=
  match tr with
  | [] => []
  | ToastError m :: rest => m :: toasts rest
  | _ :: rest => toasts rest
  end.

(** The requests among the effects. *)
Fixpoint requests (tr : list Event) : list ApiService.Request :=
  match tr with
  | [] => []
  | Gateway (ApiService.Fetch req) :: rest => req :: requests rest
  | _ :: rest => requests rest
  end.

End Page.

(** ** The deployment: the gateway talks to the routes *)

Module Deployment.

(** A value as it arrives after [JSON.stringify] on one side and
    [JSON.parse] on the other: an infinity is written as null. *)
Fixpoint transport (v : Json) : Json :=
  match v with
  | JNum PosInfinity | JNum NegInfinity => JNull
  | JArr items => JArr (map transport items)
  | JObj members => JObj (map (fun kv => (fst kv, transport (snd kv))) members)
  | _ => v
  end.

(** The response of the analyze route as [fetch] hands it to the
    gateway. *)
Definition analyze_response (resp : AnalyzeRoute.Response)
  : ApiService.Response ApiService.ApiResponse :=
  {| ApiService.status := AnalyzeRoute.status resp;
     ApiService.payload :=
       Some match AnalyzeRoute.body resp with
            | AnalyzeRoute.analysis_body v =>
                {| ApiService.parsedAnalysis := Some (transport v);
                   ApiService.error := None |}
            | AnalyzeRoute.error_body e =>
                {| ApiService.parsedAnalysis := None; ApiService.error := Some e |}
            end |}.

(** The request the route sees when the gateway posts [file]: the
    browser marks a FormData body as multipart. *)
Definition analyze_request (file : File) : AnalyzeRoute.Request :=
  {| AnalyzeRoute.content_type := Some "multipart/form-data; boundary=----WebKitFormBoundary";
     AnalyzeRoute.form_file := Some (Some file) |}.

(** The world of the gateway when every request reaches the analyze
    route and is answered in time; [providers n] is the provider as the
    route finds it while it serves the gateway's attempt [n]. *)
Definition analyze_backend (development : bool) (base64 : File -> string)
    (providers : nat -> AiAnalyzerService.World) (file : File)
  : ApiService.World ApiService.ApiResponse :=
  fun n =>
    ApiService.Resolves
      (analyze_response
         (snd (AnalyzeRoute.POST development base64 (providers n) (analyze_request file)))).

End Deployment.

(** ** The chat hook: sendMessage of useFloorPlanChat *)

Module ChatHook.

Record State := {
  messages : list ChatMessage;
  isTyping : bool
}.

(** [now n] is what the n-th call of [Date.now()] returns; [gateway] is
    [apiService.sendChatMessage]. *)
Definition sendMessage (floorplanAnalysis : option Json) (st : State) (now : nat -> Z)
    (gateway : string -> ApiService.ChatContext -> ApiService.M string)
    (message : string) : list ApiService.Event * State :=
  match floorplanAnalysis with
  | None => ([], st)
  | Some floorplanAnalysis =>
      let userMessage :=
        {| id := pretty (now 0%nat); text := message; sender := user;
           timestamp := now 1%nat |} in
      let (tr, r) :=
        gateway message
          {| ApiService.analysis := floorplanAnalysis;
             ApiService.previousMessages := messages st |} in
      let reply :=
        match r with
        | Ok data =>
            {| id := pretty (now 2%nat) +:+ "-assistant"; text := data;
               sender := assistant; timestamp := now 3%nat |}
        | Throw _ =>
            {| id := pretty (now 2%nat) +:+ "-error";
               text := "Sorry, I couldn't process your request. Please try again.";
               sender := assistant; timestamp := now 3%nat |}
        end in
      (tr, {| messages := (messages st ++ [userMessage]) ++ [reply]; isTyping := false |})
  end.

End ChatHook.

(** ** The deployment: the gateway talks to the chat route *)

Module ChatDeployment.
Import Deployment.

(** The body the chat route parses when the gateway posts a message. *)
Definition chat_request (message : string) (context : ApiService.ChatContext)
  : ChatRoute.RequestBody :=
  {| ChatRoute.message := Some message;
     ChatRoute.context :=
       Some {| AiChatService.analysis := transport (ApiService.analysis context);
               AiChatService.previousMessages :=
                 map (fun m => {| AiChatService.sender := sender m;
                                  AiChatService.text := text m |})
                     (ApiService.slice_last 5 (ApiService.previousMessages context)) |} |}.

(** The response of the chat route as [fetch] hands it to the gateway;
    an error body has no text. *)
Definition chat_response (resp : ChatRoute.Response)
  : ApiService.Response ApiService.ChatData :=
  {| ApiService.status := ChatRoute.status resp;
     ApiService.payload :=
       Some match ChatRoute.body resp with
            | ChatRoute.text_body t =>
                {| ApiService.chat_text := t; ApiService.chat_error := None |}
            | ChatRoute.error_body e =>
                {| ApiService.chat_text := ""; ApiService.chat_error := Some e |}
            end |}.

(** A provider that refuses every call with 429 or a 5xx status. *)
Definition always_overloaded (world : AiChatService.World) : Prop :=
  forall rc, exists m st,
    world rc = AiChatService.ProviderRejects (OpenAI.APIError (Some st) m)
    /\ (st = 429 \/ 500 <= st).

Section Backend.
Variable JSON_stringify : Json -> string.
(** [providers n] is the provider as the route finds it while it serves
    the gateway's attempt [n]. *)
Variable providers : nat -> AiChatService.World.

(** What the route does for the gateway's attempt [n]. *)
Definition served (message : string) (context : ApiService.ChatContext) (n : nat)
  : list ChatRoute.Event * ChatRoute.Response :=
  ChatRoute.POST JSON_stringify (providers n) (Some (chat_request message context)).

(** The world of the gateway when every request reaches the chat route
    and is answered in time. *)
Definition chat_backend (message : string) (context : ApiService.ChatContext)
  : ApiService.World ApiService.ChatData :=
  fun n => ApiService.Resolves (chat_response (snd (served message context n))).

(** The provider calls made on behalf of one sendChatMessage: those of
    the route, for each request the gateway issued. *)
Definition provider_calls_for (this : ApiService.ApiService)
    (message : string) (context : ApiService.ChatContext) : nat :=
  let issued :=
    length (ApiPolicy.fetches
              (fst (ApiService.sendChatMessage this (chat_backend message context)
                      message context 0))) in
  list_sum (map (fun n => length (ChatRoute.provider_calls (fst (served message context n))))
                (seq 0 issued)).

End Backend.

End ChatDeployment.

(** ** Data of the further scenarios *)

Module Scenarios.

Definition a_pdf : File :=
  {| file_name := "plan.pdf"; file_type := "application/pdf"; file_size := 3 * 1024 * 1024 |}.

Definition fresh_page : Page.State :=
  {| Page.uploadedFile := None; Page.imageUrl := None; Page.activeTab := Page.upload_tab;
     Page.analysis := None; Page.isAnalyzing := false; Page.isUploaded := false |}.

Definition a_blob_url : string := "blob:http://localhost:3000/0b5f".

Definition no_conversion : Json -> bool := fun _ => false.

End Scenarios.

(** ** The gateway's retry loop *)

Section ApiLoops.
Import ApiService ApiPolicy.

Lemma includes_num_In l n : includes_num l n = true <-> In n l.
Proof.
  unfold includes_num. rewrite existsb_exists. split.
  - intros (x & Hx & ->%Z.eqb_eq). exact Hx.
  - intros Hn. exists n. split; [exact Hn | apply Z.eqb_refl].
Qed.

Lemma includes_str_In l s : includes_str l s = true <-> In s l.
Proof.
  unfold includes_str. rewrite existsb_exists. split.
  - intros (x & Hx & ->%String.eqb_eq). exact Hx.
  - intros Hs. exists s. split; [exact Hs | apply String.eqb_refl].
Qed.

Lemma shouldRetry_spec error :
  shouldRetry error = true <-> carries_retryable_status (ThrownError error).
Proof.
  unfold carries_retryable_status, retryable_status. destruct error as [n m | m st]; cbn -[includes_num].
  - split; [discriminate | intros (? & ? & [=] & _)].
  - rewrite includes_num_In. cbn. split.
    + intros H. exists m, st. split; [reflexivity | intuition auto].
    + intros (? & ? & [= <- <-] & H). intuition auto.
Qed.

Lemma carries_not_abort t : carries_retryable_status t -> ~ is_abort t.
Proof. intros (m & st & -> & _) (e & [= <-] & H). discriminate H. Qed.

Lemma delays_app tr1 tr2 : delays (tr1 ++ tr2) = delays tr1 ++ delays tr2.
Proof.
  induction tr1 as [|ev tr1 IH]; [reflexivity|].
  destruct ev; cbn; rewrite IH; reflexivity.
Qed.

Lemma fetches_app tr1 tr2 : fetches (tr1 ++ tr2) = fetches tr1 ++ fetches tr2.
Proof.
  induction tr1 as [|ev tr1 IH]; [reflexivity|].
  destruct ev; cbn; rewrite IH; reflexivity.
Qed.

Lemma app_eq_self_cons {X} (l rest : list X) x : l <> l ++ x :: rest.
Proof.
  intros H. apply (f_equal (@length X)) in H.
  rewrite length_app in H. cbn in H. lia.
Qed.

Section Loop.
Context {A : Type} (this : ApiService) (label : string) (op_try op : nat -> M A).
Hypothesis loop : retry_loop this label op_try op.
Hypothesis try_no_delay : forall rc, delays (fst (op_try rc)) = [].
Hypothesis try_one_fetch : forall rc, (length (fetches (fst (op_try rc))) <= 1)%nat.

Lemma loop_retry rc tr error :
  op_try rc = (tr, Throw (ThrownError error)) ->
  shouldRetry error = true -> (rc < maxRetries this)%nat ->
  op rc = (tr ++ Delay (1000 * (Z.of_nat rc + 1)) :: fst (op (S rc)), snd (op (S rc))).
Proof.
  intros Htry Hs Hlt. rewrite loop, Htry. unfold catch_clause.
  destruct (shouldRetry_spec error) as [Hc _]. specialize (Hc Hs).
  destruct (String.eqb_spec (name error) "AbortError") as [Hab|_].
  { exfalso. apply (carries_not_abort _ Hc). exists error. auto. }
  rewrite Hs. apply Nat.ltb_lt in Hlt. rewrite Hlt. cbn [andb].
  replace (rc + 1)%nat with (S rc) by lia.
  unfold after, delay, emit, bind, backoff. destruct (op (S rc)) as [tr' r]. reflexivity.
Qed.

Lemma loop_propagate rc tr t :
  op_try rc = (tr, Throw t) ->
  ~ (carries_retryable_status t /\ (rc < maxRetries this)%nat) -> ~ is_abort t ->
  op rc = (tr ++ [LogError label t], Throw (normalizeError t)).
Proof.
  intros Htry Hno Hab. rewrite loop, Htry. unfold catch_clause.
  destruct t as [error|v]; [|reflexivity].
  destruct (String.eqb_spec (name error) "AbortError") as [Hn|_].
  { exfalso. apply Hab. exists error. auto. }
  destruct (shouldRetry error && (rc <? maxRetries this)%nat) eqn:Hb; [|reflexivity].
  exfalso. apply andb_prop in Hb as [Hs Hlt%Nat.ltb_lt].
  apply Hno. split; [apply shouldRetry_spec, Hs | exact Hlt].
Qed.

Lemma loop_abort rc tr t :
  op_try rc = (tr, Throw t) -> is_abort t ->
  op rc = (tr, Throw (new_Error "Request timeout")).
Proof.
  intros Htry (error & -> & Hn). rewrite loop, Htry. unfold catch_clause.
  rewrite Hn. cbn. unfold after. cbn. rewrite app_nil_r. reflexivity.
Qed.

Lemma abort_dec t : is_abort t \/ ~ is_abort t.
Proof.
  destruct t as [e|v]; [|right; intros (? & [=] & _)].
  destruct (String.eqb_spec (name e) "AbortError") as [H|H];
    [left; exists e; auto | right; intros (? & [= <-] & ?); auto].
Qed.

Lemma carries_dec t : carries_retryable_status t \/ ~ carries_retryable_status t.
Proof.
  destruct t as [e|v]; [|right; intros (? & ? & [=] & _)].
  destruct (shouldRetry e) eqn:Hs.
  - left. apply shouldRetry_spec, Hs.
  - right. intros Hc%shouldRetry_spec. congruence.
Qed.

Lemma loop_delays n : forall rc, (maxRetries this - rc = n)%nat ->
  exists k, (k <= n)%nat
    /\ delays (fst (op rc)) = map (fun n => 1000 * (Z.of_nat n + 1)) (seq rc k)
    /\ (length (fetches (fst (op rc))) <= k + 1)%nat.
Proof.
  induction n as [|n IH]; intros rc Hn.
  all: pose proof (try_no_delay rc) as Hd; pose proof (try_one_fetch rc) as Hf.
  all: destruct (op_try rc) as [tr [a|t]] eqn:Htry; cbn [fst] in Hd, Hf.
  all: try (exists 0%nat; rewrite loop, Htry; cbn [fst seq map];
            split; [lia | split; [exact Hd | lia]]).
  all: destruct (abort_dec t) as [Hab|Hab];
    [ exists 0%nat; rewrite (loop_abort _ _ _ Htry Hab); cbn [fst seq map];
      split; [lia | split; [exact Hd | lia]] | ].
  all: destruct (carries_dec t) as [Hc|Hc];
    [ | exists 0%nat; rewrite (loop_propagate _ _ _ Htry); [ | tauto | exact Hab];
        cbn [fst seq map]; rewrite delays_app, fetches_app, Hd, length_app; cbn;
        split; [lia | split; [reflexivity | lia]] ].
  - exists 0%nat. rewrite (loop_propagate _ _ _ Htry); [ | intros [_ ?]; lia | exact Hab].
    cbn [fst seq map]. rewrite delays_app, fetches_app, Hd, length_app. cbn.
    split; [lia | split; [reflexivity | lia]].
  - assert (Hlt : (rc < maxRetries this)%nat) by lia.
    destruct (IH (S rc)) as (k & Hk & Hdel & Hfet); [lia|].
    destruct Hc as (m & st & -> & Hst).
    assert (Hs : shouldRetry (ApiError m st) = true)
      by (apply shouldRetry_spec; exists m, st; auto).
    exists (S k). rewrite (loop_retry _ _ _ Htry Hs Hlt). cbn [fst].
    rewrite delays_app, fetches_app, Hd, length_app. cbn [app delays fetches seq map].
    rewrite Hdel. split; [lia | split; [reflexivity | lia]].
Qed.

Lemma loop_policy : retry_policy this label op_try op.
Proof.
  split.
  - intros rc tr t Htry.
    assert (Hret : carries_retryable_status t -> (rc < maxRetries this)%nat ->
              op rc = (tr ++ Delay (1000 * (Z.of_nat rc + 1)) :: fst (op (S rc)),
                       snd (op (S rc)))).
    { intros Hc Hlt. destruct Hc as (m & st & -> & Hst).
      apply (loop_retry _ _ _ Htry); [|exact Hlt].
      apply shouldRetry_spec. exists m, st. auto. }
    split; [|split].
    + split.
      * intros (ms & rest & Hfst).
        destruct (carries_dec t) as [Hc|Hc].
        2:{ exfalso. destruct (abort_dec t) as [Hab|Hab].
            - rewrite (loop_abort _ _ _ Htry Hab) in Hfst. cbn in Hfst.
              exact (app_eq_self_cons _ _ _ Hfst).
            - rewrite (loop_propagate _ _ _ Htry) in Hfst; [|tauto|exact Hab].
              cbn in Hfst. apply app_inv_head in Hfst. discriminate Hfst. }
        split; [exact Hc|].
        destruct (Nat.lt_ge_cases rc (maxRetries this)) as [Hlt|Hge]; [exact Hlt|].
        exfalso. rewrite (loop_propagate _ _ _ Htry) in Hfst;
          [| intros [_ ?]; lia | apply carries_not_abort, Hc].
        cbn in Hfst. apply app_inv_head in Hfst. discriminate Hfst.
      * intros [Hc Hlt]. rewrite (Hret Hc Hlt). eexists _, _. reflexivity.
    + exact Hret.
    + intros Hno Hab. exact (loop_propagate _ _ _ Htry Hno Hab).
  - destruct (loop_delays _ 0%nat eq_refl) as (k & Hk & Hd & Hf).
    exists k. split; [lia|]. split; assumption.
Qed.

Lemma loop_fetches n : forall rc req, (maxRetries this - rc = n)%nat ->
  In req (fetches (fst (op rc))) -> exists rc', In req (fetches (fst (op_try rc'))).
Proof.
  induction n as [|n IH]; intros rc req Hn.
  all: destruct (op_try rc) as [tr [a|t]] eqn:Htry.
  all: try (rewrite loop, Htry; cbn [fst]; intros Hin; exists rc; rewrite Htry; exact Hin).
  all: destruct (abort_dec t) as [Hab|Hab];
    [ rewrite (loop_abort _ _ _ Htry Hab); cbn [fst]; intros Hin; exists rc;
      rewrite Htry; exact Hin | ].
  all: destruct (carries_dec t) as [Hc|Hc];
    [ | rewrite (loop_propagate _ _ _ Htry); [ | tauto | exact Hab];
        cbn [fst]; rewrite fetches_app; cbn; rewrite app_nil_r; intros Hin; exists rc;
        rewrite Htry; exact Hin ].
  - rewrite (loop_propagate _ _ _ Htry); [ | intros [_ ?]; lia | exact Hab].
    cbn [fst]. rewrite fetches_app. cbn. rewrite app_nil_r. intros Hin. exists rc.
    rewrite Htry. exact Hin.
  - assert (Hlt : (rc < maxRetries this)%nat) by lia.
    destruct Hc as (m & st & -> & Hst).
    assert (Hs : shouldRetry (ApiError m st) = true)
      by (apply shouldRetry_spec; exists m, st; auto).
    rewrite (loop_retry _ _ _ Htry Hs Hlt). cbn [fst].
    rewrite fetches_app. cbn [fetches]. intros [Hin|Hin]%in_app_or.
    + exists rc. rewrite Htry. exact Hin.
    + apply (IH (S rc)); [lia | exact Hin].
Qed.

Lemma loop_prefix rc : exists rest, fst (op rc) = fst (op_try rc) ++ rest.
Proof.
  rewrite loop. destruct (op_try rc) as [tr [a|t]]; cbn [fst].
  - exists []. symmetry. apply app_nil_r.
  - unfold catch_clause, after.
    destruct t as [e|v]; [destruct (String.eqb _ _); [|destruct (_ && _)]|];
      cbn [fst]; eexists; reflexivity.
Qed.

End Loop.

(** Each operation is an instance of the loop. *)
Lemma analyzeImage_loop this world file :
  retry_loop this "Image analysis error:"
    (analyzeImage_try this world file) (analyzeImage this world file).
Proof.
  intros rc. simp analyzeImage.
  destruct (analyzeImage_try this world file rc) as [tr [a|[e|v]]];
    unfold catch_clause; simp analyzeImage; try reflexivity.
  destruct (String.eqb (name e) "AbortError"); simp analyzeImage; try reflexivity.
  destruct (inspect _) as [[|] Hb]; simp analyzeImage; rewrite Hb; reflexivity.
Qed.

Lemma generateSpeech_loop this world text :
  retry_loop this "Speech generation error:"
    (generateSpeech_try this world text) (generateSpeech this world text).
Proof.
  intros rc. simp generateSpeech.
  destruct (generateSpeech_try this world text rc) as [tr [a|[e|v]]];
    unfold catch_clause; simp generateSpeech; try reflexivity.
  destruct (String.eqb (name e) "AbortError"); simp generateSpeech; try reflexivity.
  destruct (inspect _) as [[|] Hb]; simp generateSpeech; rewrite Hb; reflexivity.
Qed.

Lemma sendChatMessage_loop this world message context :
  retry_loop this "Chat message error:"
    (sendChatMessage_try this world message context)
    (sendChatMessage this world message context).
Proof.
  intros rc. simp sendChatMessage.
  destruct (sendChatMessage_try this world message context rc) as [tr [a|[e|v]]];
    unfold catch_clause; simp sendChatMessage; try reflexivity.
  destruct (String.eqb (name e) "AbortError"); simp sendChatMessage; try reflexivity.
  destruct (inspect _) as [[|] Hb]; simp sendChatMessage; rewrite Hb; reflexivity.
Qed.

(** What one try block does: the effects up to the end of [fetch]. *)
Lemma fetch_cases {D} (outcome : FetchOutcome D) req :
  fetch outcome req =
  match outcome with
  | TimerFires => ([Fetch req; Abort],
                   Throw (ThrownError (Error_ "AbortError" "The operation was aborted")))
  | Rejects e => ([Fetch req], Throw (ThrownError e))
  | Resolves r => ([Fetch req], Ok r)
  end.
Proof. destruct outcome; reflexivity. Qed.

Ltac try_cases :=
  repeat match goal with
         | |- context [match ?x with _ => _ end] =>
             lazymatch x with
             | context [match _ with _ => _ end] => fail
             | _ => destruct x; cbn
             end
         end.

Lemma analyzeImage_try_trace this world file rc :
  delays (fst (analyzeImage_try this world file rc)) = []
  /\ (length (fetches (fst (analyzeImage_try this world file rc))) <= 1)%nat.
Proof.
  unfold analyzeImage_try, validateFile. rewrite fetch_cases.
  destruct file as [f|]; cbn; [|split; [reflexivity | lia]].
  try_cases; split; (reflexivity || lia).
Qed.

Lemma generateSpeech_try_trace this world text rc :
  delays (fst (generateSpeech_try this world text rc)) = []
  /\ (length (fetches (fst (generateSpeech_try this world text rc))) <= 1)%nat.
Proof.
  unfold generateSpeech_try. rewrite fetch_cases. cbn.
  try_cases; split; (reflexivity || lia).
Qed.

Lemma sendChatMessage_try_trace this world message context rc :
  delays (fst (sendChatMessage_try this world message context rc)) = []
  /\ (length (fetches (fst (sendChatMessage_try this world message context rc))) <= 1)%nat.
Proof.
  unfold sendChatMessage_try. rewrite fetch_cases. cbn.
  try_cases; split; (reflexivity || lia).
Qed.

Lemma slice_last_spec {X} (n : nat) (a : list X) :
  length (slice_last n a) = Nat.min n (length a)
  /\ exists earlier, a = earlier ++ slice_last n a.
Proof.
  unfold slice_last. split.
  - rewrite length_drop. lia.
  - exists (take (length a - n) a). symmetry. apply take_drop.
Qed.


(** The scenarios of the specification, run on the model. *)
Example four_429_then_propagated :
  let run := analyzeImage service3 (always 429) (Some a_jpeg) 0 in
  delays (fst run) = [1000; 2000; 3000]
  /\ length (fetches (fst run)) = 4%nat
  /\ snd run = Throw (ThrownError (ApiError "failed" 429)).
Proof. vm_compute. auto. Qed.

Example a_404_is_not_retried :
  let run := analyzeImage service3 (always 404) (Some a_jpeg) 0 in
  delays (fst run) = []
  /\ length (fetches (fst run)) = 1%nat
  /\ snd run = Throw (ThrownError (ApiError "failed" 404)).
Proof. vm_compute. auto. Qed.

(** A response whose body is not JSON fails in [response.json()], before
    the status is looked at: the SyntaxError carries no status and is
    not retried, whatever the status of the response was. *)
Example a_503_without_json_body :
  let world : World ApiResponse := fun _ => Resolves {| status := 503; payload := None |} in
  let run := analyzeImage service3 world (Some a_jpeg) 0 in
  delays (fst run) = []
  /\ snd run = Throw (ThrownError (Error_ "SyntaxError" "Unexpected token in JSON")).
Proof. vm_compute. auto. Qed.

(** C1. For analyzeImage, sendChatMessage and generateSpeech alike: an
    attempt whose try block fails is retried if and only if the failure
    carries one of the status codes 408, 429, 500, 502, 503, 504 and
    [retryCount], the number of retries already made, is below
    [maxRetries]; the wait before attempt n+1 is 1000 * (n+1) ms and is
    followed by the re-issued call; every other failure (a 404, say) is
    logged and thrown at once; a call started at [retryCount = 0] waits
    1000, 2000, ... ms, at most [maxRetries] times. *)
Theorem retry_policy_of_the_gateway (this : ApiService) :
  (forall world file,
      retry_policy this "Image analysis error:"
        (analyzeImage_try this world file) (analyzeImage this world file))
  /\ (forall world message context,
      retry_policy this "Chat message error:"
        (sendChatMessage_try this world message context)
        (sendChatMessage this world message context))
  /\ (forall world text,
      retry_policy this "Speech generation error:"
        (generateSpeech_try this world text) (generateSpeech this world text)).
Proof.
  split; [|split]; intros.
  - apply loop_policy; [apply analyzeImage_loop | |]; intros rc;
      apply analyzeImage_try_trace.
  - apply loop_policy; [apply sendChatMessage_loop | |]; intros rc;
      apply sendChatMessage_try_trace.
  - apply loop_policy; [apply generateSpeech_loop | |]; intros rc;
      apply generateSpeech_try_trace.
Qed.

Lemma retry_policy_of_the_gateway_witness :
  analyzeImage service3 (always 429) (Some a_jpeg) 2 =
  (fst (analyzeImage_try service3 (always 429) (Some a_jpeg) 2)
     ++ Delay 3000 :: fst (analyzeImage service3 (always 429) (Some a_jpeg) 3),
   snd (analyzeImage service3 (always 429) (Some a_jpeg) 3)).
Proof.
  refine (proj1 (proj2 (proj1 (proj1 (retry_policy_of_the_gateway service3)
                                 (always 429) (Some a_jpeg))
                          2%nat _ (ThrownError (ApiError "failed" 429)) eq_refl)) _ _).
  - exists "failed", 429. split; [reflexivity|]. right; left; reflexivity.
  - cbn. lia.
Defined.

(** C5. An attempt whose response does not arrive before the timer fires
    is cancelled through the abort signal and the operation fails with
    "Request timeout"; nothing follows the abort: no wait, no further
    request, whatever [retryCount] and [maxRetries] are. *)
Theorem timed_out_attempt_is_not_retried (this : ApiService) (retryCount : nat) :
  (forall world f,
      In (file_type f) ["image/jpeg"; "image/png"; "image/webp"] ->
      file_size f <= 5 * 1024 * 1024 ->
      world retryCount = TimerFires ->
      exists req,
        analyzeImage this world (Some f) retryCount =
        ([SetTimeout (timeout this); Fetch req; Abort],
         Throw (ThrownError (Error_ "Error" "Request timeout"))))
  /\ (forall world message context,
      world retryCount = TimerFires ->
      exists req,
        sendChatMessage this world message context retryCount =
        ([SetTimeout (timeout this); Fetch req; Abort],
         Throw (ThrownError (Error_ "Error" "Request timeout"))))
  /\ (forall world text,
      world retryCount = TimerFires ->
      exists req,
        generateSpeech this world text retryCount =
        ([SetTimeout (timeout this); Fetch req; Abort],
         Throw (ThrownError (Error_ "Error" "Request timeout")))).
Proof.
  split; [|split].
  - intros world f Hty Hsz Hw. eexists.
    rewrite analyzeImage_loop. unfold analyzeImage_try, validateFile.
    apply includes_str_In in Hty. unfold ALLOWED_FILE_TYPES. rewrite Hty.
    replace (file_size f >? MAX_FILE_SIZE) with false
      by (symmetry; rewrite Z.gtb_ltb; apply Z.ltb_ge; exact Hsz).
    rewrite Hw. reflexivity.
  - intros world message context Hw. eexists.
    rewrite sendChatMessage_loop. unfold sendChatMessage_try. rewrite Hw. reflexivity.
  - intros world text Hw. eexists.
    rewrite generateSpeech_loop. unfold generateSpeech_try. rewrite Hw. reflexivity.
Qed.

Lemma timed_out_attempt_is_not_retried_witness :
  exists req,
    analyzeImage service3 (fun _ => TimerFires) (Some a_jpeg) 0 =
    ([SetTimeout 30000; Fetch req; Abort],
     Throw (ThrownError (Error_ "Error" "Request timeout"))).
Proof.
  apply (proj1 (timed_out_attempt_is_not_retried service3 0) (fun _ => TimerFires) a_jpeg).
  - cbn. auto.
  - cbn. lia.
  - reflexivity.
Defined.

Lemma sendChatMessage_try_fetches this world message context rc :
  exists tail,
    fst (sendChatMessage_try this world message context rc) =
    SetTimeout (timeout this)
      :: Fetch {| url := baseUrl this +:+ "/chat";
                  method := "POST";
                  headers := [("Content-Type", "application/json");
                              ("Accept", "application/json")];
                  body := Json_chat message (analysis context)
                            (slice_last 5 (previousMessages context)) |}
      :: tail
    /\ fetches tail = [].
Proof.
  unfold sendChatMessage_try. rewrite fetch_cases. cbn.
  try_cases; eexists; split; reflexivity.
Qed.

(** C7. Whatever the length n of the history, every request that
    sendChatMessage issues (the first attempt and each retry) has as its
    body the given message, the given analysis, and the last min(5, n)
    prior messages in their order; and the call issues such a request. *)
Theorem chat_request_carries_last_five this world message context retryCount :
  (exists req rest,
      fst (sendChatMessage this world message context retryCount) =
      SetTimeout (timeout this) :: Fetch req :: rest)
  /\ (forall req,
      In req (fetches (fst (sendChatMessage this world message context retryCount))) ->
      exists sent earlier,
        body req = Json_chat message (analysis context) sent
        /\ previousMessages context = earlier ++ sent
        /\ length sent = Nat.min 5 (length (previousMessages context))).
Proof.
  split.
  - destruct (loop_prefix _ _ _ _ (sendChatMessage_loop this world message context)
                retryCount) as (rest & ->).
    destruct (sendChatMessage_try_fetches this world message context retryCount)
      as (tail & -> & _).
    cbn. eexists _, _. reflexivity.
  - intros req Hin.
    destruct (loop_fetches _ _ _ _ (sendChatMessage_loop this world message context)
                _ retryCount req eq_refl Hin) as (rc' & Hin').
    destruct (sendChatMessage_try_fetches this world message context rc')
      as (tail & Heq & Htail).
    rewrite Heq in Hin'. cbn in Hin'. rewrite Htail in Hin'.
    destruct Hin' as [<-|[]]. cbn [body].
    destruct (slice_last_spec 5 (previousMessages context)) as (Hlen & earlier & Hsplit).
    exists (slice_last 5 (previousMessages context)), earlier. auto.
Qed.


Lemma chat_request_carries_last_five_witness :
  exists sent earlier,
    Json_chat "hi" JNull (map msg [3; 4; 5; 6; 7]) = Json_chat "hi" JNull sent
    /\ map msg [1; 2; 3; 4; 5; 6; 7] = earlier ++ sent
    /\ length sent = 5%nat.
Proof.
  apply (proj2 (chat_request_carries_last_five service3
                  (fun _ => TimerFires) "hi" seven_messages 0)
           {| url := "http://localhost:3000/api/chat";
              method := "POST";
              headers := [("Content-Type", "application/json");
                          ("Accept", "application/json")];
              body := Json_chat "hi" JNull (map msg [3; 4; 5; 6; 7]) |}).
  vm_compute. left. reflexivity.
Defined.

Example seven_messages_two_retries :
  map body (fetches (fst (sendChatMessage service3
      (fun n => if (n <? 2)%nat
                then Resolves {| status := 503; payload := Some {| chat_text := ""; chat_error := None |} |}
                else Resolves {| status := 200; payload := Some {| chat_text := "ok"; chat_error := None |} |})
      "hi" seven_messages 0)))
  = repeat (Json_chat "hi" JNull (map msg [3; 4; 5; 6; 7])) 3.
Proof. vm_compute. reflexivity. Qed.

End ApiLoops.

(** ** File validation, on the client and in the analyze route *)

Section Validation.
Import ApiService ApiPolicy.

Lemma route_includes_str_In l s : AnalyzeRoute.includes_str l s = true <-> In s l.
Proof. apply includes_str_In. Qed.

(** C2. A file whose type is not image/jpeg, image/png or image/webp, or
    whose size exceeds 5 * 1024 * 1024 bytes, makes analyzeImage throw
    its validation error with no request issued and no wait (the run
    consists of the log line alone); the analyze route checks the same
    two constraints, the type first, and answers 415 or 413 with no
    analyzer call. *)
Theorem invalid_file_is_rejected_up_front (f : File) :
  (forall this world retryCount,
      (~ In (file_type f) ["image/jpeg"; "image/png"; "image/webp"] ->
       analyzeImage this world (Some f) retryCount =
       (let e := ThrownError
                   (Error_ "Error" "Unsupported file type. Please upload JPEG, PNG or WebP") in
        ([LogError "Image analysis error:" e], Throw e)))
      /\ (In (file_type f) ["image/jpeg"; "image/png"; "image/webp"] ->
          file_size f > 5 * 1024 * 1024 ->
          analyzeImage this world (Some f) retryCount =
          (let e := ThrownError (Error_ "Error" "File is too large. Maximum size is 5MB") in
           ([LogError "Image analysis error:" e], Throw e))))
  /\ (forall development base64 world req ct,
      AnalyzeRoute.content_type req = Some ct ->
      str_includes "multipart/form-data" ct = true ->
      AnalyzeRoute.form_file req = Some (Some f) ->
      (~ In (file_type f) ["image/jpeg"; "image/png"; "image/webp"] ->
       exists msg,
         AnalyzeRoute.POST development base64 world req =
         ([], {| AnalyzeRoute.body := AnalyzeRoute.error_body msg;
                 AnalyzeRoute.status := 415 |}))
      /\ (In (file_type f) ["image/jpeg"; "image/png"; "image/webp"] ->
          file_size f > 5 * 1024 * 1024 ->
          AnalyzeRoute.POST development base64 world req =
          ([], {| AnalyzeRoute.body :=
                    AnalyzeRoute.error_body "File size too large. Maximum size is 5MB";
                  AnalyzeRoute.status := 413 |}))).
Proof.
  split.
  - intros this world rc. split.
    + intros Hty. rewrite analyzeImage_loop. unfold analyzeImage_try, validateFile.
      destruct (includes_str ALLOWED_FILE_TYPES (file_type f)) eqn:Hin.
      { exfalso. apply Hty, includes_str_In, Hin. }
      reflexivity.
    + intros Hty Hsz. rewrite analyzeImage_loop. unfold analyzeImage_try, validateFile.
      apply includes_str_In in Hty. unfold ALLOWED_FILE_TYPES. rewrite Hty.
      replace (file_size f >? MAX_FILE_SIZE) with true
        by (symmetry; rewrite Z.gtb_ltb; apply Z.ltb_lt; unfold MAX_FILE_SIZE; lia).
      reflexivity.
  - intros development base64 world req ct Hct Hmp Hfile. unfold AnalyzeRoute.POST.
    rewrite Hct, Hmp, Hfile. cbn [negb]. split.
    + intros Hty.
      destruct (AnalyzeRoute.includes_str AnalyzeRoute.ALLOWED_FILE_TYPES (file_type f)) eqn:Hin.
      { exfalso. apply Hty, route_includes_str_In, Hin. }
      eexists. reflexivity.
    + intros Hty Hsz. apply route_includes_str_In in Hty.
      unfold AnalyzeRoute.ALLOWED_FILE_TYPES. rewrite Hty.
      replace (file_size f >? AnalyzeRoute.MAX_FILE_SIZE) with true
        by (symmetry; rewrite Z.gtb_ltb; apply Z.ltb_lt; unfold AnalyzeRoute.MAX_FILE_SIZE; lia).
      reflexivity.
Qed.


Lemma invalid_file_is_rejected_up_front_witness :
  (exists msg,
      AnalyzeRoute.POST false (fun _ => "") (fun _ => AiAnalyzerService.ProviderRejects
                                                        (OpenAI.Error_ "Error" "down"))
        {| AnalyzeRoute.content_type := Some "multipart/form-data; boundary=x";
           AnalyzeRoute.form_file := Some (Some a_gif) |} =
      ([], {| AnalyzeRoute.body := AnalyzeRoute.error_body msg;
              AnalyzeRoute.status := 415 |}))
  /\ analyzeImage service3 (always 200) (Some six_mib_jpeg) 0 =
     (let e := ThrownError (Error_ "Error" "File is too large. Maximum size is 5MB") in
      ([LogError "Image analysis error:" e], Throw e)).
Proof.
  split.
  - apply (proj1 (proj2 (invalid_file_is_rejected_up_front a_gif) false (fun _ => "")
                   (fun _ => AiAnalyzerService.ProviderRejects (OpenAI.Error_ "Error" "down"))
                   {| AnalyzeRoute.content_type := Some "multipart/form-data; boundary=x";
                      AnalyzeRoute.form_file := Some (Some a_gif) |}
                   "multipart/form-data; boundary=x" eq_refl eq_refl eq_refl)).
    cbn. intros [H|[H|[H|[]]]]; discriminate H.
  - apply (proj2 (proj1 (invalid_file_is_rejected_up_front six_mib_jpeg)
                    service3 (always 200) 0%nat)).
    + cbn. auto.
    + cbn. lia.
Defined.

End Validation.

(** ** The analysis service's retry loop *)

Section AnalyzerLoop.
Import OpenAI AiAnalyzerService AnalyzerPolicy.

Lemma sentinel_is_emptyResponse : analysis_json emptyResponse = sentinel.
Proof. reflexivity. Qed.

Lemma analyzer_loop_raw world imageUrl rc :
  analyzeImage world imageUrl rc =
  match analyzeImage_try world imageUrl rc with
  | (tr, Ok v) => (tr, Ok v)
  | (tr, Throw t) =>
      if (rc <? MAX_RETRIES)%nat && shouldRetry t then
        after tr (delay (RETRY_DELAY * (Z.of_nat rc + 1)) >>
                  analyzeImage world imageUrl (rc + 1)%nat)
      else after tr (loggerError t >> ret (analysis_json emptyResponse))
  end.
Proof.
  simp analyzeImage.
  destruct (analyzeImage_try world imageUrl rc) as [tr [v|t]]; simp analyzeImage;
    [reflexivity|].
  destruct (inspect _) as [[|] Hb]; simp analyzeImage; rewrite Hb; reflexivity.
Qed.

Lemma analyzer_loop world imageUrl rc :
  analyzeImage world imageUrl rc =
  match analyzeImage_try world imageUrl rc with
  | (tr, Ok v) => (tr, Ok v)
  | (tr, Throw t) =>
      if (rc <? MAX_RETRIES)%nat && shouldRetry t then
        (tr ++ Delay (RETRY_DELAY * (Z.of_nat rc + 1)) :: fst (analyzeImage world imageUrl (S rc)),
         snd (analyzeImage world imageUrl (S rc)))
      else (tr ++ [LoggerError t], Ok sentinel)
  end.
Proof.
  rewrite analyzer_loop_raw.
  destruct (analyzeImage_try world imageUrl rc) as [tr [v|t]]; [reflexivity|].
  replace (rc + 1)%nat with (S rc) by lia.
  destruct (_ && _); [|reflexivity].
  unfold after, delay, emit, bind. destruct (analyzeImage world imageUrl (S rc)). reflexivity.
Qed.

Lemma analyzer_shouldRetry_spec t : shouldRetry t = true <-> provider_retryable t.
Proof.
  unfold provider_retryable. destruct t as [[st|] m | n m]; cbn.
  - rewrite orb_true_iff, !Z.eqb_eq. split.
    + intros H. exists m, st. auto.
    + intros (? & ? & [= <- <-] & H). exact H.
  - split; [discriminate | intros (? & ? & [=] & _)].
  - split; [discriminate | intros (? & ? & [=] & _)].
Qed.

Lemma try_trace world imageUrl rc :
  fst (analyzeImage_try world imageUrl rc) = [Create (the_request imageUrl)].
Proof.
  unfold analyzeImage_try, create, areaScoreValid, get. cbn.
  destruct (world rc) as [e|r]; cbn; [reflexivity|].
  repeat match goal with
         | |- context [match ?x with _ => _ end] =>
             lazymatch x with
             | context [match _ with _ => _ end] => fail
             | _ => destruct x; cbn
             end
         end; reflexivity.
Qed.

Lemma score_ok_spec v : score_ok v = true <-> exists n, v = JNum n /\ in_range n.
Proof.
  unfold in_range. destruct v as [ | b | n | s | items | members]; cbn;
    try (split; [discriminate | intros (? & [=] & _)]).
  destruct n as [q | | ]; cbn.
  - rewrite andb_true_iff, !Qle_bool_iff. split.
    + intros [H0 H100]. exists (Finite q). split; [reflexivity|]. exists q. auto.
    + intros (? & [= <-] & q' & [= <-] & H). exact H.
  - split; [discriminate | intros (? & [= <-] & ? & [=] & _)].
  - split; [discriminate | intros (? & [= <-] & ? & [=] & _)].
Qed.

Lemma forallb_score_ok_false values v :
  In v values -> (forall n, v = JNum n -> ~ in_range n) ->
  forallb score_ok values = false.
Proof.
  intros Hin Hbad. destruct (forallb score_ok values) eqn:Hall; [|reflexivity].
  exfalso. rewrite forallb_forall in Hall. specialize (Hall v Hin).
  apply score_ok_spec in Hall as (n & -> & Hn). exact (Hbad n eq_refl Hn).
Qed.

Ltac split_cases :=
  repeat match goal with
         | |- context [match ?x with _ => _ end] =>
             lazymatch x with
             | context [match _ with _ => _ end] => fail
             | _ => let E := fresh "E" in destruct x eqn:E; cbn
             end
         end.

(** An unusable reply makes the try block throw a plain error. *)
Lemma invalid_response_throws world imageUrl rc r :
  world rc = ProviderResolves r -> invalid_response r ->
  exists n m, analyzeImage_try world imageUrl rc =
              ([Create (the_request imageUrl)], Throw (Error_ n m)).
Proof.
  intros Hw Hinv. unfold analyzeImage_try, create. rewrite Hw. cbn.
  destruct Hinv as [[-> | ->] | c rest -> Hc]; cbn; [eexists _, _; reflexivity ..|].
  destruct (String.eqb_spec (finish_reason c) "length") as [|Hlen];
    [eexists _, _; reflexivity|].
  destruct (String.eqb_spec (finish_reason c) "content_filter") as [|Hcf];
    [eexists _, _; reflexivity|].
  destruct Hc as [H|H|H|t H Hraw|t H Hp|t j H Hp Hs|t j H Hp Hr|t j s values v H Hp Hs Hv Hin Hbad];
    try contradiction; rewrite H; cbn; try (eexists _, _; reflexivity).
  - rewrite Hraw. cbn. eexists _, _; reflexivity.
  - destruct (String.eqb (raw t) ""); [eexists _, _; reflexivity|].
    rewrite Hp. eexists _, _; reflexivity.
  - destruct (String.eqb (raw t) ""); [eexists _, _; reflexivity|].
    rewrite Hp. unfold get. rewrite Hs. cbn. eexists _, _; reflexivity.
  - destruct (String.eqb (raw t) ""); [eexists _, _; reflexivity|].
    rewrite Hp. unfold get. rewrite Hr.
    destruct (prop j "scores") as [[s|]|]; cbn; try (eexists _, _; reflexivity).
    destruct (truthy s); cbn; eexists _, _; reflexivity.
  - destruct (String.eqb (raw t) ""); [eexists _, _; reflexivity|].
    rewrite Hp. unfold get. rewrite Hs. cbn -[areaScoreValid].
    destruct (truthy s); cbn -[areaScoreValid]; [|eexists _, _; reflexivity].
    destruct (prop j "recommendations") as [[rs|]|]; cbn -[areaScoreValid];
      try (eexists _, _; reflexivity).
    destruct (truthy rs); cbn -[areaScoreValid]; [|eexists _, _; reflexivity].
    unfold areaScoreValid. rewrite Hv, (forallb_score_ok_false _ _ Hin Hbad). cbn.
    eexists _, _; reflexivity.
Qed.

(** What a value that leaves the try block has been checked for. *)
Lemma try_ok_checked world imageUrl rc tr v :
  analyzeImage_try world imageUrl rc = (tr, Ok v) ->
  exists s rs values,
    prop v "scores" = Some (Some s) /\ truthy s = true
    /\ prop v "recommendations" = Some (Some rs) /\ truthy rs = true
    /\ Object_values s = Some values
    /\ forall x, In x values -> exists n, x = JNum n /\ in_range n.
Proof.
  unfold analyzeImage_try, create, get, areaScoreValid. cbn.
  split_cases; intros [= <- <-].
  match goal with
  | Hs : prop _ "scores" = Some (Some ?s), Hfs : negb (truthy ?s) = false,
    Hr : prop _ "recommendations" = Some ?o, Hfr : falsy ?o = false,
    Hv : Object_values ?s = Some ?values, Hall : negb (forallb score_ok ?values) = false |- _ =>
      destruct o as [rs|]; [|discriminate Hfr];
      apply negb_false_iff in Hfs, Hfr, Hall;
      exists s, rs, values; repeat (split; [assumption|]);
      intros x Hx; apply score_ok_spec;
      rewrite forallb_forall in Hall; exact (Hall x Hx)
  end.
Qed.

(** Induction along the retries: a property of the call at [retryCount]
    may rely on the call at [retryCount + 1] while retries are left. *)
Lemma retry_ind (P : nat -> Prop) :
  (forall rc, ((rc < MAX_RETRIES)%nat -> P (S rc)) -> P rc) -> forall rc, P rc.
Proof.
  intros step rc. remember (MAX_RETRIES - rc)%nat as n eqn:Hn.
  revert rc Hn. induction n as [|n IH]; intros rc Hn; apply step; intros Hlt.
  - lia.
  - apply IH. lia.
Qed.

Lemma analyzer_retry world imageUrl rc tr t :
  analyzeImage_try world imageUrl rc = (tr, Throw t) ->
  provider_retryable t -> (rc < 2)%nat ->
  analyzeImage world imageUrl rc =
  (tr ++ Delay (500 * (Z.of_nat rc + 1)) :: fst (analyzeImage world imageUrl (S rc)),
   snd (analyzeImage world imageUrl (S rc))).
Proof.
  intros Htry Ht%analyzer_shouldRetry_spec Hlt. rewrite analyzer_loop, Htry, Ht.
  apply Nat.ltb_lt in Hlt. unfold MAX_RETRIES. rewrite Hlt. reflexivity.
Qed.

Lemma analyzer_degrade world imageUrl rc tr t :
  analyzeImage_try world imageUrl rc = (tr, Throw t) ->
  ~ (provider_retryable t /\ (rc < 2)%nat) ->
  analyzeImage world imageUrl rc = (tr ++ [LoggerError t], Ok sentinel).
Proof.
  intros Htry Hno. rewrite analyzer_loop, Htry.
  destruct ((rc <? MAX_RETRIES)%nat && shouldRetry t) eqn:Hb; [|reflexivity].
  exfalso. apply andb_prop in Hb as [Hlt%Nat.ltb_lt Ht%analyzer_shouldRetry_spec].
  apply Hno. split; [exact Ht | exact Hlt].
Qed.

Lemma provider_retryable_dec t : provider_retryable t \/ ~ provider_retryable t.
Proof.
  destruct (shouldRetry t) eqn:Hs.
  - left. apply analyzer_shouldRetry_spec, Hs.
  - right. intros H%analyzer_shouldRetry_spec. congruence.
Qed.

Lemma analyzer_try_eq world imageUrl rc :
  exists r, analyzeImage_try world imageUrl rc = ([Create (the_request imageUrl)], r).
Proof.
  exists (snd (analyzeImage_try world imageUrl rc)).
  rewrite <- (try_trace world imageUrl rc). apply surjective_pairing.
Qed.

(** The waits of a call are 500 * (n + 1) for n = retryCount, ..., and
    each wait is followed by exactly one more provider call. *)
Lemma analyzer_delays world imageUrl rc :
  exists k, (k <= MAX_RETRIES - rc)%nat
    /\ delays (fst (analyzeImage world imageUrl rc)) =
       map (fun n => 500 * (Z.of_nat n + 1)) (seq rc k)
    /\ creates (fst (analyzeImage world imageUrl rc)) = repeat (the_request imageUrl) (k + 1).
Proof.
  revert rc. apply retry_ind. intros rc IH.
  destruct (analyzer_try_eq world imageUrl rc) as ([v|t] & Htry).
  - exists 0%nat. rewrite analyzer_loop, Htry. cbn. split; [lia | split; reflexivity].
  - destruct (provider_retryable_dec t) as [Ht|Ht].
    + destruct (Nat.lt_ge_cases rc 2) as [Hlt|Hge].
      * destruct (IH Hlt) as (k & Hk & Hd & Hc). exists (S k).
        rewrite (analyzer_retry _ _ _ _ _ Htry Ht Hlt). cbn [fst app delays creates].
        rewrite Hd, Hc. unfold MAX_RETRIES in *. split; [lia | split; reflexivity].
      * exists 0%nat. rewrite (analyzer_degrade _ _ _ _ _ Htry); [|intros [_ ?]; lia].
        cbn. split; [lia | split; reflexivity].
    + exists 0%nat. rewrite (analyzer_degrade _ _ _ _ _ Htry); [|tauto].
      cbn. split; [lia | split; reflexivity].
Qed.

(** The completion of a call is the sentinel, or the value with which
    the try block of one of its attempts ended. *)
Lemma analyzer_result world imageUrl rc :
  snd (analyzeImage world imageUrl rc) = Ok sentinel
  \/ exists rc' v, (rc <= rc')%nat
       /\ snd (analyzeImage_try world imageUrl rc') = Ok v
       /\ snd (analyzeImage world imageUrl rc) = Ok v.
Proof.
  revert rc. apply retry_ind. intros rc IH.
  destruct (analyzer_try_eq world imageUrl rc) as ([v|t] & Htry).
  - right. exists rc, v. rewrite analyzer_loop, Htry. auto.
  - destruct (provider_retryable_dec t) as [Ht|Ht].
    + destruct (Nat.lt_ge_cases rc 2) as [Hlt|Hge].
      * rewrite (analyzer_retry _ _ _ _ _ Htry Ht Hlt). cbn [snd].
        destruct (IH Hlt) as [Hs | (rc' & v & Hle & Hv & Hres)]; [left; exact Hs|].
        right. exists rc', v. split; [lia | auto].
      * left. rewrite (analyzer_degrade _ _ _ _ _ Htry); [reflexivity | intros [_ ?]; lia].
    + left. rewrite (analyzer_degrade _ _ _ _ _ Htry); [reflexivity | tauto].
Qed.

(** Every score that a returned value does hold is a number in [0, 100]:
    the value is the sentinel, or it passed the checks of a try block. *)
Lemma returned_scores_checked world imageUrl rc v :
  snd (analyzeImage world imageUrl rc) = Ok v ->
  v = sentinel
  \/ exists s values,
       prop v "scores" = Some (Some s) /\ Object_values s = Some values
       /\ forall x, In x values -> exists n, x = JNum n /\ in_range n.
Proof.
  intros Hv. destruct (analyzer_result world imageUrl rc) as [Hs | (rc' & v' & _ & Htry & Hres)].
  - left. congruence.
  - right. assert (v' = v) as -> by congruence.
    destruct (analyzeImage_try world imageUrl rc') as [tr r] eqn:E. cbn in Htry. subst r.
    destruct (try_ok_checked _ _ _ _ _ E) as (s & rs & values & Hs & _ & _ & _ & Hvals & Hall).
    exists s, values. auto.
Qed.


Lemma assoc_In k ms v : assoc k ms = Some v -> In v (map snd ms).
Proof.
  induction ms as [|[k' v'] ms IH]; cbn; [discriminate|].
  destruct (String.eqb k k'); [intros [= ->]; left; reflexivity | right; auto].
Qed.

(** When the scores object of a returned value does name the four
    scores, each of them is a number in [0, 100]. *)
Lemma returned_scores_in_range world imageUrl rc v ms :
  snd (analyzeImage world imageUrl rc) = Ok v ->
  prop v "scores" = Some (Some (JObj ms)) ->
  (forall k, In k ["lighting"; "space"; "flow"; "accessibility"] -> assoc k ms <> None) ->
  four_scores_in_range v.
Proof.
  intros Hv Hs Hkeys. exists (JObj ms). split; [exact Hs|]. intros k Hk.
  specialize (Hkeys k Hk). destruct (assoc k ms) as [x|] eqn:Hx; [clear Hkeys | congruence].
  destruct (returned_scores_checked _ _ _ _ Hv) as [-> | (s & values & Hs' & Hvals & Hall)].
  - injection Hs as <-. cbn in Hk, Hx.
    destruct Hk as [<-|[<-|[<-|[<-|[]]]]]; cbn in Hx; injection Hx as <-;
      (eexists; split; [reflexivity|]); exists 0%Q; (split; [reflexivity|]); split; discriminate.
  - rewrite Hs in Hs'. injection Hs' as <-. cbn in Hvals. injection Hvals as <-.
    destruct (Hall x (assoc_In _ _ _ Hx)) as (n & -> & Hn).
    exists n. cbn. rewrite Hx. auto.
Qed.

Lemma sentinel_in_range : four_scores_in_range sentinel.
Proof.
  apply (returned_scores_in_range rate_limited a_png_url 0 sentinel
           [("lighting", JNum (Finite 0)); ("space", JNum (Finite 0));
            ("flow", JNum (Finite 0)); ("accessibility", JNum (Finite 0))]);
    [reflexivity | reflexivity |].
  intros k [<-|[<-|[<-|[<-|[]]]]]; discriminate.
Qed.

(** C3. The reply { scores: { lighting: 50 }, recommendations: [] }
    passes every check of analyzeImage and is returned as it is, after
    one provider call and with nothing logged; the returned value is
    not an analysis with four scores in [0, 100]: it has no space, flow
    or accessibility score. *)
Theorem reply_with_one_score_is_returned :
  exists v,
    analyzeImage (fun _ => ProviderResolves one_score_reply) a_png_url 0 =
    ([Create (the_request a_png_url)], Ok v)
    /\ v = JObj [("scores", JObj [("lighting", JNum (Finite 50))]);
                 ("recommendations", JArr [])]
    /\ ~ four_scores_in_range v.
Proof.
  eexists. split; [vm_compute; reflexivity|]. split; [reflexivity|].
  intros (s & [= <-] & Hall).
  destruct (Hall "space") as (n & Hn & _); [cbn; auto|]. discriminate Hn.
Qed.

(** C4. Once the retries are used up (two retries made), a failing
    attempt is not propagated: the call logs the error and returns the
    analysis with the four scores 0 and no recommendation.  So a call
    whose three provider calls are all refused with 429 or 500 returns
    that analysis after waiting 500 and 1000 ms. *)
Theorem exhausted_retries_return_the_sentinel world imageUrl :
  (forall retryCount tr t,
      (2 <= retryCount)%nat ->
      analyzeImage_try world imageUrl retryCount = (tr, Throw t) ->
      analyzeImage world imageUrl retryCount =
      (tr ++ [LoggerError t],
       Ok (analysis_json
             {| scores := {| lighting := Finite 0; space := Finite 0;
                             flow := Finite 0; accessibility := Finite 0 |};
                recommendations := [] |})))
  /\ (forall t0 t1 t2,
      world 0%nat = ProviderRejects t0 -> provider_retryable t0 ->
      world 1%nat = ProviderRejects t1 -> provider_retryable t1 ->
      world 2%nat = ProviderRejects t2 ->
      analyzeImage world imageUrl 0 =
      ([Create (the_request imageUrl); Delay 500;
        Create (the_request imageUrl); Delay 1000;
        Create (the_request imageUrl); LoggerError t2],
       Ok (JObj [("scores", JObj [("lighting", JNum (Finite 0)); ("space", JNum (Finite 0));
                                  ("flow", JNum (Finite 0));
                                  ("accessibility", JNum (Finite 0))]);
                 ("recommendations", JArr [])]))).
Proof.
  split.
  - intros rc tr t Hrc Htry. apply (analyzer_degrade _ _ _ _ _ Htry). intros [_ ?]; lia.
  - intros t0 t1 t2 H0 Ht0 H1 Ht1 H2.
    assert (Htry : forall rc t, world rc = ProviderRejects t ->
              analyzeImage_try world imageUrl rc = ([Create (the_request imageUrl)], Throw t)).
    { intros rc t Hw. unfold analyzeImage_try, create. rewrite Hw. reflexivity. }
    rewrite (analyzer_retry _ _ _ _ _ (Htry _ _ H0) Ht0) by lia.
    rewrite (analyzer_retry _ _ _ _ _ (Htry _ _ H1) Ht1) by lia.
    rewrite (analyzer_degrade _ _ _ _ _ (Htry _ _ H2)) by (intros [_ ?]; lia).
    reflexivity.
Qed.


Lemma exhausted_retries_return_the_sentinel_witness :
  analyzeImage rate_limited a_png_url 0 =
  ([Create (the_request a_png_url); Delay 500;
    Create (the_request a_png_url); Delay 1000;
    Create (the_request a_png_url); LoggerError (APIError (Some 429) "Rate limit")],
   Ok (JObj [("scores", JObj [("lighting", JNum (Finite 0)); ("space", JNum (Finite 0));
                              ("flow", JNum (Finite 0));
                              ("accessibility", JNum (Finite 0))]);
             ("recommendations", JArr [])])).
Proof.
  apply (proj2 (exhausted_retries_return_the_sentinel rate_limited a_png_url)
           (APIError (Some 429) "Rate limit") (APIError (Some 429) "Rate limit")
           (APIError (Some 429) "Rate limit")); try reflexivity.
  - exists "Rate limit", 429. split; [reflexivity | left; reflexivity].
  - exists "Rate limit", 429. split; [reflexivity | left; reflexivity].
Defined.

Lemma not_retried_tail {A} (tr : list Event) (m : M A) ev :
  fst m = tr ++ [ev] -> (forall ms, ev <> Delay ms) -> ~ retried_after tr m.
Proof.
  intros Hm Hev (ms & rest & Hfst). rewrite Hm in Hfst.
  apply app_inv_head in Hfst. injection Hfst as -> _. exact (Hev ms eq_refl).
Qed.

(** C6. A failed attempt of analyzeImage is retried if and only if the
    error is a provider API error with status 429 or 500 and fewer than
    2 retries have been made; the wait is 500 * (retryCount + 1) ms
    (500, then 1000) and is followed by the re-issued call; any other
    error is logged with no retry; a call makes at most 2 additional
    provider calls. *)
Theorem analyzer_retry_policy world imageUrl :
  (forall retryCount tr t,
      analyzeImage_try world imageUrl retryCount = (tr, Throw t) ->
      (retried_after tr (analyzeImage world imageUrl retryCount) <->
       provider_retryable t /\ (retryCount < 2)%nat)
      /\ (provider_retryable t -> (retryCount < 2)%nat ->
          analyzeImage world imageUrl retryCount =
          (tr ++ Delay (500 * (Z.of_nat retryCount + 1))
              :: fst (analyzeImage world imageUrl (S retryCount)),
           snd (analyzeImage world imageUrl (S retryCount))))
      /\ (~ provider_retryable t ->
          fst (analyzeImage world imageUrl retryCount) = tr ++ [LoggerError t]))
  /\ (exists k, (k <= 2)%nat
        /\ delays (fst (analyzeImage world imageUrl 0)) = firstn k [500; 1000]
        /\ length (creates (fst (analyzeImage world imageUrl 0))) = (k + 1)%nat).
Proof.
  split.
  - intros rc tr t Htry. split; [|split].
    + split.
      * intros Hret. destruct (provider_retryable_dec t) as [Ht|Ht].
        -- split; [exact Ht|]. destruct (Nat.lt_ge_cases rc 2) as [Hlt|Hge]; [exact Hlt|].
           exfalso. revert Hret. apply (not_retried_tail _ _ (LoggerError t)); [|discriminate].
           rewrite (analyzer_degrade _ _ _ _ _ Htry); [reflexivity | intros [_ ?]; lia].
        -- exfalso. revert Hret. apply (not_retried_tail _ _ (LoggerError t)); [|discriminate].
           rewrite (analyzer_degrade _ _ _ _ _ Htry); [reflexivity | tauto].
      * intros [Ht Hlt]. rewrite (analyzer_retry _ _ _ _ _ Htry Ht Hlt).
        eexists _, _. reflexivity.
    + apply (analyzer_retry _ _ _ _ _ Htry).
    + intros Ht. rewrite (analyzer_degrade _ _ _ _ _ Htry); [reflexivity | tauto].
  - destruct (analyzer_delays world imageUrl 0) as (k & Hk & Hd & Hc).
    exists k. unfold MAX_RETRIES in Hk. split; [lia|].
    rewrite Hd, Hc, repeat_length. split; [|reflexivity].
    destruct k as [|[|[|k]]]; try reflexivity. lia.
Qed.

Lemma analyzer_retry_policy_witness :
  analyzeImage rate_limited a_png_url 1 =
  ([Create (the_request a_png_url)] ++ Delay 1000 :: fst (analyzeImage rate_limited a_png_url 2),
   snd (analyzeImage rate_limited a_png_url 2)).
Proof.
  refine (proj1 (proj2 (proj1 (analyzer_retry_policy rate_limited a_png_url) 1%nat
                          [Create (the_request a_png_url)]
                          (APIError (Some 429) "Rate limit") eq_refl)) _ _).
  - exists "Rate limit", 429. split; [reflexivity | left; reflexivity].
  - lia.
Defined.

(** C10. analyzeImage never throws: every call completes with a value;
    an attempt that fails with an error that is not retried (any error
    other than a 429 or 500 API error, or any error once two retries are
    made) ends the call with the log line and the all-zero sentinel; a
    reply with no choice, cut short, filtered, empty, unparseable,
    lacking scores or recommendations, or with a score outside [0, 100]
    is such a failure; and whatever is returned is the sentinel or the
    value on which a try block ended. *)
Theorem analyzer_never_throws world imageUrl retryCount :
  (exists v, snd (analyzeImage world imageUrl retryCount) = Ok v)
  /\ (forall tr t,
      analyzeImage_try world imageUrl retryCount = (tr, Throw t) ->
      ~ (provider_retryable t /\ (retryCount < 2)%nat) ->
      analyzeImage world imageUrl retryCount = (tr ++ [LoggerError t], Ok sentinel))
  /\ (forall r,
      world retryCount = ProviderResolves r -> invalid_response r ->
      exists t, analyzeImage world imageUrl retryCount =
                ([Create (the_request imageUrl); LoggerError t], Ok sentinel))
  /\ (snd (analyzeImage world imageUrl retryCount) = Ok sentinel
      \/ exists rc' v, (retryCount <= rc')%nat
           /\ snd (analyzeImage_try world imageUrl rc') = Ok v
           /\ snd (analyzeImage world imageUrl retryCount) = Ok v).
Proof.
  split; [|split; [|split]].
  - destruct (analyzer_result world imageUrl retryCount) as [H | (rc' & v & _ & _ & H)];
      eexists; exact H.
  - intros tr t. apply analyzer_degrade.
  - intros r Hw Hinv.
    destruct (invalid_response_throws world imageUrl retryCount r Hw Hinv) as (n & m & Htry).
    exists (Error_ n m). apply (analyzer_degrade _ _ _ _ _ Htry).
    intros [(? & ? & [=] & _) _].
  - apply analyzer_result.
Qed.


Lemma analyzer_never_throws_witness :
  exists t, analyzeImage (fun _ => ProviderResolves filtered_reply) a_png_url 0 =
            ([Create (the_request a_png_url); LoggerError t], Ok sentinel).
Proof.
  apply (proj1 (proj2 (proj2 (analyzer_never_throws
                                (fun _ => ProviderResolves filtered_reply) a_png_url 0)))
           filtered_reply eq_refl).
  eapply bad_choice; [reflexivity|]. apply filtered. reflexivity.
Defined.

End AnalyzerLoop.

(** ** The chat service's provider request *)

Section ChatRequest.
Import OpenAI AiChatService ChatPolicy.
Variable JSON_stringify : Json -> string.

Lemma chat_loop world message context rc :
  generateResponse JSON_stringify world message context rc =
  match generateResponse_try JSON_stringify world message context rc with
  | (tr, Ok content) => (tr, Ok content)
  | (tr, Throw t) =>
      if (rc <? MAX_RETRIES)%nat && shouldRetry t then
        after tr (delay (RETRY_DELAY * (Z.of_nat rc + 1)) >>
                  generateResponse JSON_stringify world message context (rc + 1)%nat)
      else after tr (logError t >> throw t)
  end.
Proof.
  simp generateResponse.
  destruct (generateResponse_try JSON_stringify world message context rc) as [tr [v|t]];
    simp generateResponse; [reflexivity|].
  destruct (inspect _) as [[|] Hb]; simp generateResponse; rewrite Hb; reflexivity.
Qed.

Lemma chat_try_trace world message context rc :
  fst (generateResponse_try JSON_stringify world message context rc) =
  [Create (request JSON_stringify message context)].
Proof.
  unfold generateResponse_try, create. cbn -[request].
  destruct (world rc) as [e|r]; cbn -[request]; [reflexivity|].
  repeat match goal with
         | |- context [match ?x with _ => _ end] =>
             lazymatch x with
             | context [match _ with _ => _ end] => fail
             | _ => destruct x; cbn -[request]
             end
         end; reflexivity.
Qed.

Lemma In_Create_creates req tr : In (Create req) tr -> In req (creates tr).
Proof.
  induction tr as [|ev tr IH]; [intros []|].
  intros [->|Hin]; [left; reflexivity|].
  destruct ev; cbn; auto.
Qed.

(** Every provider call of one generateResponse sends the same request. *)
Lemma chat_creates world message context n : forall rc,
  (MAX_RETRIES - rc = n)%nat ->
  exists k,
    creates (fst (generateResponse JSON_stringify world message context rc)) =
    repeat (request JSON_stringify message context) (k + 1).
Proof.
  induction n as [|n IH]; intros rc Hn; rewrite chat_loop;
    pose proof (chat_try_trace world message context rc) as Htr;
    destruct (generateResponse_try JSON_stringify world message context rc) as [tr [v|t]];
    cbn [fst] in Htr; subst tr.
  1,3: exists 0%nat; reflexivity.
  - replace (rc <? MAX_RETRIES)%nat with false by (symmetry; apply Nat.ltb_ge; lia).
    exists 0%nat. reflexivity.
  - destruct (_ && _); [|exists 0%nat; reflexivity].
    destruct (IH (rc + 1)%nat) as (k & Hk); [lia|].
    exists (S k). unfold after, delay, emit, bind.
    destruct (generateResponse JSON_stringify world message context (rc + 1)) as [tr' r'].
    cbn [fst snd] in *. cbn -[request]. rewrite Hk. reflexivity.
Qed.

(** C8. Every provider request that generateResponse builds, for any
    analysis and any history, starts with a system message whose text
    contains the serialised analysis verbatim; the prior messages follow,
    each with its sender as role and its text as content, and the user's
    message comes last.  The call does issue such a request. *)
Theorem system_instruction_embeds_the_analysis world message context retryCount :
  (exists req rest,
      fst (generateResponse JSON_stringify world message context retryCount) =
      Create req :: rest)
  /\ (forall req,
      In (Create req) (fst (generateResponse JSON_stringify world message context retryCount)) ->
      exists instruction,
        messages req =
        {| role := "system"; content := instruction |}
          :: map (fun m => {| role := match sender m with
                                      | user => "user"
                                      | assistant => "assistant"
                                      end;
                              content := text m |})
                 (previousMessages context)
          ++ [ {| role := "user"; content := message |} ]
        /\ substring_of (JSON_stringify (analysis context)) instruction).
Proof.
  split.
  - destruct (chat_creates world message context _ retryCount eq_refl) as (k & Hk).
    rewrite chat_loop in *.
    pose proof (chat_try_trace world message context retryCount) as Htr.
    destruct (generateResponse_try JSON_stringify world message context retryCount)
      as [tr [v|t]]; cbn [fst] in Htr; subst tr.
    + eexists _, _. reflexivity.
    + unfold after. destruct (_ && _); cbn [fst app]; eexists _, _; reflexivity.
  - intros req Hin%In_Create_creates.
    destruct (chat_creates world message context _ retryCount eq_refl) as (k & Hk).
    rewrite Hk in Hin. apply repeat_spec in Hin. subst req.
    exists (createSystemPrompt JSON_stringify (analysis context)). split; [reflexivity|].
    unfold substring_of, createSystemPrompt. eexists _, _. reflexivity.
Qed.

End ChatRequest.

Section ChatExample.
Import OpenAI AiChatService ChatPolicy.


Lemma system_instruction_embeds_the_analysis_witness :
  exists instruction,
    [ {| role := "system";
         content := createSystemPrompt (fun _ => "<analysis>") (analysis kitchen_context) |};
      {| role := "assistant"; content := "Hi" |};
      {| role := "user"; content := "what about the kitchen?" |} ] =
    [ {| role := "system"; content := instruction |};
      {| role := "assistant"; content := "Hi" |};
      {| role := "user"; content := "what about the kitchen?" |} ]
    /\ substring_of "<analysis>" instruction.
Proof.
  apply (proj2 (system_instruction_embeds_the_analysis (fun _ => "<analysis>")
                  (fun _ => ProviderRejects (Error_ "Error" "offline"))
                  "what about the kitchen?" kitchen_context 0)
           (request (fun _ => "<analysis>") "what about the kitchen?" kitchen_context)).
  left. reflexivity.
Defined.

End ChatExample.

(** ** Draining the speech stream *)

Section AudioBuffer.
Import TtsRoute.

Lemma read_all_app (reader : ReadableStream) (chunks : list Chunk) :
  read_all reader chunks = chunks ++ reader.
Proof.
  revert chunks. induction reader as [|value rest IH]; intros chunks; cbn.
  - symmetry. apply app_nil_r.
  - rewrite IH, <- app_assoc. reflexivity.
Qed.

Lemma total_length (chunks : list Chunk) (acc : nat) :
  fold_left (fun acc chunk => acc + length chunk)%nat chunks acc =
  (acc + length (concat chunks))%nat.
Proof.
  revert acc. induction chunks as [|chunk rest IH]; intros acc; cbn.
  - lia.
  - rewrite IH, length_app. lia.
Qed.

(** The copy loop fills the part of the buffer after [filled], chunk by
    chunk, when the room left is exactly what the chunks need. *)
Lemma copy_chunks_fills (chunks : list Chunk) :
  forall filled room : list Byte.byte,
    length room = length (concat chunks) ->
    copy_chunks chunks (filled ++ room) (length filled) = Some (filled ++ concat chunks).
Proof.
  induction chunks as [|chunk rest IH]; intros filled room Hroom; cbn in *.
  - destruct room; [reflexivity | discriminate Hroom].
  - rewrite length_app in Hroom. unfold Uint8Array_set.
    replace (length filled + length chunk <=? length (filled ++ room))%nat with true
      by (symmetry; apply Nat.leb_le; rewrite length_app; lia).
    rewrite take_app_length, drop_app_add.
    replace (filled ++ chunk ++ drop (length chunk) room)
      with ((filled ++ chunk) ++ drop (length chunk) room) by (rewrite <- app_assoc; reflexivity).
    rewrite <- (length_app filled chunk), IH.
    + rewrite <- app_assoc. reflexivity.
    + rewrite length_drop. lia.
Qed.

(** C9. For every finite sequence of chunks, getAudioBuffer returns one
    buffer: the chunks concatenated in the order they were read, its
    length the sum of the chunk lengths. *)
Theorem getAudioBuffer_concatenates (response : ReadableStream) :
  getAudioBuffer response = Some (concat response)
  /\ length (concat response) = list_sum (map (@length Byte.byte) response).
Proof.
  split.
  - unfold getAudioBuffer, Uint8Array_new. rewrite read_all_app, total_length. cbn [app].
    apply (copy_chunks_fills response []). apply length_replicate.
  - induction response as [|chunk rest IH]; [reflexivity|].
    cbn. rewrite length_app, IH. reflexivity.
Qed.

Example chunks_of_10_20_5 :
  let stream := [repeat Byte.x01 10; repeat Byte.x02 20; repeat Byte.x03 5] in
  getAudioBuffer stream =
  Some (repeat Byte.x01 10 ++ repeat Byte.x02 20 ++ repeat Byte.x03 5)
  /\ option_map (@length Byte.byte) (getAudioBuffer stream) = Some 35%nat.
Proof. vm_compute. split; reflexivity. Qed.

End AudioBuffer.

(** ** The chat service's retry loop and outcomes *)

Section ChatLoop.
Import OpenAI AiChatService ChatPolicy ChatRetry.
Variable JSON_stringify : Json -> string.

Abbreviation gen := (generateResponse JSON_stringify).
Abbreviation gen_try := (generateResponse_try JSON_stringify).

Lemma chat_shouldRetry_spec t : shouldRetry t = true <-> chat_retryable t.
Proof.
  unfold chat_retryable. destruct t as [[st|] m | n m]; cbn.
  - rewrite orb_true_iff, Z.eqb_eq, Z.geb_le. split.
    + intros H. exists m, st. auto.
    + intros (? & ? & [= <- <-] & H). exact H.
  - split; [discriminate | intros (? & ? & [=] & _)].
  - split; [discriminate | intros (? & ? & [=] & _)].
Qed.

Lemma chat_retryable_dec t : chat_retryable t \/ ~ chat_retryable t.
Proof.
  destruct (shouldRetry t) eqn:Hs.
  - left. apply chat_shouldRetry_spec, Hs.
  - right. intros H%chat_shouldRetry_spec. congruence.
Qed.

Lemma chat_retry world message context rc tr t :
  gen_try world message context rc = (tr, Throw t) ->
  chat_retryable t -> (rc < 3)%nat ->
  gen world message context rc =
  (tr ++ Delay (1000 * (Z.of_nat rc + 1)) :: fst (gen world message context (S rc)),
   snd (gen world message context (S rc))).
Proof.
  intros Htry Ht%chat_shouldRetry_spec Hlt. rewrite chat_loop, Htry, Ht.
  apply Nat.ltb_lt in Hlt. unfold MAX_RETRIES. rewrite Hlt. cbn [andb].
  replace (rc + 1)%nat with (S rc) by lia.
  unfold after, delay, emit, bind. destruct (gen world message context (S rc)). reflexivity.
Qed.

Lemma chat_rethrow world message context rc tr t :
  gen_try world message context rc = (tr, Throw t) ->
  ~ (chat_retryable t /\ (rc < 3)%nat) ->
  gen world message context rc = (tr ++ [LogError t], Throw t).
Proof.
  intros Htry Hno. rewrite chat_loop, Htry.
  destruct ((rc <? MAX_RETRIES)%nat && shouldRetry t) eqn:Hb; [|reflexivity].
  exfalso. apply andb_prop in Hb as [Hlt%Nat.ltb_lt Ht%chat_shouldRetry_spec].
  apply Hno. split; [exact Ht | exact Hlt].
Qed.

Lemma chat_retry_ind (P : nat -> Prop) :
  (forall rc, ((rc < 3)%nat -> P (S rc)) -> P rc) -> forall rc, P rc.
Proof.
  intros step rc. remember (3 - rc)%nat as n eqn:Hn.
  revert rc Hn. induction n as [|n IH]; intros rc Hn; apply step; intros Hlt.
  - lia.
  - apply IH. lia.
Qed.

Lemma chat_try_eq world message context rc :
  exists r, gen_try world message context rc =
            ([Create (request JSON_stringify message context)], r).
Proof.
  exists (snd (gen_try world message context rc)).
  rewrite <- (chat_try_trace JSON_stringify world message context rc).
  apply surjective_pairing.
Qed.

Lemma chat_delays world message context rc :
  exists k, (k <= 3 - rc)%nat
    /\ delays (fst (gen world message context rc)) =
       map (fun n => 1000 * (Z.of_nat n + 1)) (seq rc k)
    /\ length (creates (fst (gen world message context rc))) = (k + 1)%nat.
Proof.
  revert rc. apply chat_retry_ind. intros rc IH.
  destruct (chat_try_eq world message context rc) as ([v|t] & Htry).
  - exists 0%nat. rewrite chat_loop, Htry. cbn. split; [lia | split; reflexivity].
  - destruct (chat_retryable_dec t) as [Ht|Ht].
    + destruct (Nat.lt_ge_cases rc 3) as [Hlt|Hge].
      * destruct (IH Hlt) as (k & Hk & Hd & Hc). exists (S k).
        rewrite (chat_retry _ _ _ _ _ _ Htry Ht Hlt). cbn [fst app delays creates length].
        rewrite Hd, Hc. split; [lia | split; reflexivity].
      * exists 0%nat. rewrite (chat_rethrow _ _ _ _ _ _ Htry); [|intros [_ ?]; lia].
        cbn. split; [lia | split; reflexivity].
    + exists 0%nat. rewrite (chat_rethrow _ _ _ _ _ _ Htry); [|tauto].
      cbn. split; [lia | split; reflexivity].
Qed.

(** X1. generateResponse retries a failed provider call if and only if
    the error is an API error with status 429 or with a status of 500 or
    more, and fewer than 3 retries have been made; it waits
    1000 * (retryCount + 1) ms before the retry; any other failure is
    logged and thrown on unchanged; a call waits a prefix of 1000, 2000,
    3000 ms and makes one provider call more than it waits. *)
Theorem chat_retry_policy world message context :
  (forall retryCount tr t,
      gen_try world message context retryCount = (tr, Throw t) ->
      (retried_after tr (gen world message context retryCount) <->
       chat_retryable t /\ (retryCount < 3)%nat)
      /\ (chat_retryable t -> (retryCount < 3)%nat ->
          gen world message context retryCount =
          (tr ++ Delay (1000 * (Z.of_nat retryCount + 1))
              :: fst (gen world message context (S retryCount)),
           snd (gen world message context (S retryCount))))
      /\ (~ (chat_retryable t /\ (retryCount < 3)%nat) ->
          gen world message context retryCount = (tr ++ [LogError t], Throw t)))
  /\ (exists k, (k <= 3)%nat
        /\ delays (fst (gen world message context 0)) = firstn k [1000; 2000; 3000]
        /\ length (creates (fst (gen world message context 0))) = (k + 1)%nat).
Proof.
  split.
  - intros rc tr t Htry. split; [|split].
    + split.
      * intros (ms & rest & Hfst).
        assert (Hyes : ~ ~ (chat_retryable t /\ (rc < 3)%nat)).
        { intros Hno. rewrite (chat_rethrow _ _ _ _ _ _ Htry Hno) in Hfst. cbn in Hfst.
          apply app_inv_head in Hfst. discriminate Hfst. }
        destruct (chat_retryable_dec t) as [Ht|Ht]; [|tauto].
        split; [exact Ht|]. destruct (Nat.lt_ge_cases rc 3); [assumption|].
        exfalso. apply Hyes. intros [_ ?]. lia.
      * intros [Ht Hlt]. rewrite (chat_retry _ _ _ _ _ _ Htry Ht Hlt).
        eexists _, _. reflexivity.
    + apply (chat_retry _ _ _ _ _ _ Htry).
    + apply (chat_rethrow _ _ _ _ _ _ Htry).
  - destruct (chat_delays world message context 0) as (k & Hk & Hd & Hc).
    exists k. split; [lia|]. rewrite Hd, Hc. split; [|reflexivity].
    destruct k as [|[|[|[|k]]]]; try reflexivity. lia.
Qed.

(** What a text that leaves the try block has been checked for. *)
Lemma chat_try_ok world message context rc tr s :
  gen_try world message context rc = (tr, Ok s) ->
  s <> ""
  /\ exists r c rest,
      world rc = ProviderResolves r /\ choices r = Some (c :: rest)
      /\ message_content c = Some s
      /\ finish_reason c <> "length" /\ finish_reason c <> "content_filter".
Proof.
  unfold generateResponse_try, create. cbn -[request].
  destruct (world rc) as [e|r] eqn:Hw; cbn -[request]; [discriminate|].
  destruct (choices r) as [[|c rest]|] eqn:Hc; cbn -[request]; try discriminate.
  destruct (String.eqb_spec (finish_reason c) "length") as [|Hlen]; [discriminate|].
  destruct (String.eqb_spec (finish_reason c) "content_filter") as [|Hcf]; [discriminate|].
  destruct (message_content c) as [content|] eqn:Hm; [|discriminate].
  destruct (String.eqb_spec content "") as [|Hne]; [discriminate|].
  intros [= _ <-]. split; [exact Hne|]. exists r, c, rest. auto.
Qed.

Lemma chat_ok_nonempty world message context retryCount s :
  snd (gen world message context retryCount) = Ok s -> s <> "".
Proof.
  pattern retryCount. revert retryCount. apply chat_retry_ind. intros rc IH. cbv beta in *.
  destruct (gen_try world message context rc) as [tr [s0|t0]] eqn:Htry.
  - rewrite chat_loop, Htry. cbn [snd]. intros [= <-].
    apply (chat_try_ok _ _ _ _ _ _ Htry).
  - destruct (chat_retryable_dec t0) as [Ht|Ht];
      [destruct (Nat.lt_ge_cases rc 3) as [Hlt|Hge]|].
    + rewrite (chat_retry _ _ _ _ _ _ Htry Ht Hlt). cbn [snd]. exact (IH Hlt).
    + rewrite (chat_rethrow _ _ _ _ _ _ Htry); [discriminate | intros [_ ?]; lia].
    + rewrite (chat_rethrow _ _ _ _ _ _ Htry); [discriminate | tauto].
Qed.

(** X2. Whatever generateResponse returns is the non-empty text of the
    first choice of a reply that was neither cut short nor filtered,
    received by one of its attempts; whatever it throws is the error
    with which the try block of its last attempt failed, unchanged, and
    that error was not retryable or came after the third retry. *)
Theorem chat_outcome world message context retryCount :
  (forall s,
      snd (gen world message context retryCount) = Ok s ->
      s <> ""
      /\ exists rc' r c rest,
          (retryCount <= rc')%nat
          /\ world rc' = ProviderResolves r /\ choices r = Some (c :: rest)
          /\ message_content c = Some s
          /\ finish_reason c <> "length" /\ finish_reason c <> "content_filter")
  /\ (forall t,
      snd (gen world message context retryCount) = Throw t ->
      exists rc' tr,
        (retryCount <= rc')%nat
        /\ gen_try world message context rc' = (tr, Throw t)
        /\ ~ (chat_retryable t /\ (rc' < 3)%nat)).
Proof.
  revert retryCount. apply chat_retry_ind. intros rc IH.
  destruct (gen_try world message context rc) as [tr [s0|t0]] eqn:Htry.
  - rewrite chat_loop, Htry. cbn [snd]. split.
    + intros s [= <-]. destruct (chat_try_ok _ _ _ _ _ _ Htry) as (Hne & r & c & rest & H).
      split; [exact Hne|]. exists rc, r, c, rest. split; [lia | exact H].
    + intros t [=].
  - destruct (chat_retryable_dec t0) as [Ht|Ht];
      [destruct (Nat.lt_ge_cases rc 3) as [Hlt|Hge]|].
    + rewrite (chat_retry _ _ _ _ _ _ Htry Ht Hlt). cbn [snd].
      destruct (IH Hlt) as [IHok IHthrow]. split.
      * intros s Hs. destruct (IHok s Hs) as (Hne & rc' & r & c & rest & Hle & H).
        split; [exact Hne|]. exists rc', r, c, rest. split; [lia | exact H].
      * intros t Hthrow. destruct (IHthrow t Hthrow) as (rc' & tr' & Hle & H).
        exists rc', tr'. split; [lia | exact H].
    + rewrite (chat_rethrow _ _ _ _ _ _ Htry); [|intros [_ ?]; lia]. cbn [snd]. split.
      * intros s [=].
      * intros t [= <-]. exists rc, tr. split; [lia|]. split; [exact Htry|]. intros [_ ?]; lia.
    + rewrite (chat_rethrow _ _ _ _ _ _ Htry); [|tauto]. cbn [snd]. split.
      * intros s [=].
      * intros t [= <-]. exists rc, tr. split; [lia|]. split; [exact Htry | tauto].
Qed.

(** X3. A reply without choices, a first choice cut short ("length"),
    a first choice filtered ("content_filter") and a first choice with
    no text are four failures with four messages; each ends the call at
    once, with one provider call, the log line and the error thrown to
    the caller: no retry and no substitute answer. *)
Theorem refused_reply_is_thrown world message context retryCount r msg :
  world retryCount = ProviderResolves r ->
  refused_reply r msg ->
  gen world message context retryCount =
  ([Create (request JSON_stringify message context); LogError (Error_ "Error" msg)],
   Throw (Error_ "Error" msg)).
Proof.
  intros Hw Href.
  assert (Htry : gen_try world message context retryCount =
                 ([Create (request JSON_stringify message context)],
                  Throw (Error_ "Error" msg))).
  { unfold generateResponse_try, create. rewrite Hw. cbn -[request].
    destruct Href as [[-> | ->] | c rest -> Hf | c rest -> Hf | c rest -> Hl Hf Hm];
      cbn -[request]; try reflexivity.
    - rewrite Hf. reflexivity.
    - rewrite Hf. reflexivity.
    - destruct (String.eqb_spec (finish_reason c) "length") as [|_]; [contradiction|].
      destruct (String.eqb_spec (finish_reason c) "content_filter") as [|_]; [contradiction|].
      destruct Hm as [-> | ->]; reflexivity. }
  rewrite (chat_rethrow _ _ _ _ _ _ Htry); [reflexivity|].
  intros [(? & ? & [=] & _) _].
Qed.

End ChatLoop.

Section ChatLoopWitness.
Import OpenAI AiChatService ChatPolicy ChatRetry.

Lemma chat_retry_policy_witness :
  generateResponse (fun _ => "{}") overloaded "hi" kitchen_context 2 =
  ([Create (request (fun _ => "{}") "hi" kitchen_context)]
     ++ Delay 3000 :: fst (generateResponse (fun _ => "{}") overloaded "hi" kitchen_context 3),
   snd (generateResponse (fun _ => "{}") overloaded "hi" kitchen_context 3)).
Proof.
  refine (proj1 (proj2 (proj1 (chat_retry_policy (fun _ => "{}") overloaded "hi"
                                 kitchen_context)
                          2%nat [Create (request (fun _ => "{}") "hi" kitchen_context)]
                          (APIError (Some 503) "Service unavailable") eq_refl)) _ _).
  - exists "Service unavailable", 503. split; [reflexivity | right; lia].
  - lia.
Defined.

Lemma chat_outcome_witness :
  "Add a window." <> ""
  /\ exists rc' r c rest,
      (0 <= rc')%nat
      /\ (fun _ => ProviderResolves good_reply) rc' = ProviderResolves r
      /\ choices r = Some (c :: rest)
      /\ message_content c = Some "Add a window."
      /\ finish_reason c <> "length" /\ finish_reason c <> "content_filter".
Proof.
  apply (proj1 (chat_outcome (fun _ => "{}") (fun _ => ProviderResolves good_reply)
                  "hi" kitchen_context 0) "Add a window.").
  reflexivity.
Defined.

Lemma refused_reply_is_thrown_witness :
  generateResponse (fun _ => "{}") (fun _ => ProviderResolves truncated_reply)
    "hi" kitchen_context 0 =
  ([Create (request (fun _ => "{}") "hi" kitchen_context);
    LogError (Error_ "Error" "The response is too long")],
   Throw (Error_ "Error" "The response is too long")).
Proof.
  apply (refused_reply_is_thrown (fun _ => "{}") (fun _ => ProviderResolves truncated_reply)
           "hi" kitchen_context 0 truncated_reply "The response is too long" eq_refl).
  apply (refused_length truncated_reply _ [] eq_refl). reflexivity.
Defined.

End ChatLoopWitness.

(** ** The chat route *)

Section ChatRouteAnswers.
Import OpenAI ChatRoute.
Variable JSON_stringify : Json -> string.

Lemma provider_calls_service tr :
  provider_calls (map Service tr) = ChatPolicy.creates tr.
Proof.
  induction tr as [|ev tr IH]; [reflexivity|].
  destruct ev; cbn; rewrite IH; reflexivity.
Qed.

Lemma provider_calls_app tr1 tr2 :
  provider_calls (tr1 ++ tr2) = provider_calls tr1 ++ provider_calls tr2.
Proof.
  induction tr1 as [|ev tr1 IH]; [reflexivity|].
  destruct ev as [[]|]; cbn; rewrite IH; reflexivity.
Qed.

Lemma chat_route_calls world json :
  (length (provider_calls (fst (POST JSON_stringify world json))) <= 4)%nat.
Proof.
  unfold POST. destruct json as [parsed|]; cbn; [|lia].
  destruct (message parsed) as [m|]; cbn; [|lia].
  destruct (String.eqb m ""); cbn; [lia|].
  destruct (context parsed) as [c|]; cbn; [|lia].
  destruct (chat_delays JSON_stringify world m c 0) as (k & Hk & _ & Hcalls).
  destruct (AiChatService.generateResponse JSON_stringify world m c 0) as [tr [s|t]];
    cbn in *.
  - rewrite provider_calls_service, Hcalls. lia.
  - rewrite provider_calls_app, provider_calls_service, length_app, Hcalls. cbn. lia.
Qed.

(** X4. The chat route answers 400 exactly when the parsed body lacks
    a non-empty message or lacks the context (the message is looked at
    first), and then without any provider call; otherwise it answers 200
    with the non-empty text the chat service returned, or 500 with the
    fixed text "Failed to process chat message." whatever the error was;
    it never makes more than 4 provider calls. *)
Theorem chat_route_answers world json :
  let run := POST JSON_stringify world json in
  (status (snd run) = 400 <->
   exists parsed, json = Some parsed
     /\ (message parsed = None \/ message parsed = Some "" \/ context parsed = None))
  /\ (status (snd run) = 400 -> fst run = [])
  /\ (status (snd run) = 200 /\ (exists s, body (snd run) = text_body s /\ s <> "")
      \/ status (snd run) = 400
      \/ status (snd run) = 500
         /\ body (snd run) = error_body "Failed to process chat message.")
  /\ (length (provider_calls (fst run)) <= 4)%nat.
Proof.
  unfold POST. destruct json as [parsed|]; cbn.
  { destruct (message parsed) as [m|] eqn:Hm; cbn.
    2:{ split; [|split; [|split]]; auto. split; [|reflexivity]. intros _. exists parsed. auto. }
    destruct (String.eqb_spec m "") as [->|Hne]; cbn.
    { split; [|split; [|split]]; auto. split; [|reflexivity]. intros _. exists parsed. auto. }
    destruct (context parsed) as [c|] eqn:Hc; cbn.
    2:{ split; [|split; [|split]]; auto. split; [|reflexivity]. intros _. exists parsed. auto. }
    destruct (chat_delays JSON_stringify world m c 0) as (k & Hk & _ & Hcalls).
    pose proof (chat_ok_nonempty JSON_stringify world m c 0) as Hok.
    destruct (AiChatService.generateResponse JSON_stringify world m c 0) as [tr [s|t]];
      cbn in *.
    - split; [|split; [|split]].
      + split; [discriminate|]. intros (p & [= <-] & [H|[H|H]]); congruence.
      + discriminate.
      + left. split; [reflexivity|]. exists s. split; [reflexivity|].
        apply (Hok s eq_refl).
      + rewrite provider_calls_service, Hcalls. lia.
    - split; [|split; [|split]].
      + split; [discriminate|]. intros (p & [= <-] & [H|[H|H]]); congruence.
      + discriminate.
      + right; right. auto.
      + rewrite provider_calls_app, provider_calls_service, length_app, Hcalls. cbn. lia. }
  split; [|split; [|split]]; auto.
  - split; [discriminate | intros (? & [=] & _)].
  - discriminate.
Qed.

End ChatRouteAnswers.

(** ** The analyze route on top of the analysis service *)

Section AnalyzeRouteAnswers.
Import OpenAI AnalyzeRoute AnalyzeRoutePolicy.
Variable development : bool.
Variable base64 : File -> string.

Lemma multipart_dec req : multipart req \/ ~ multipart req.
Proof.
  unfold multipart. destruct (content_type req) as [ct|].
  - destruct (str_includes "multipart/form-data" ct) eqn:H.
    + left. exists ct. auto.
    + right. intros (? & [= <-] & ?). congruence.
  - right. intros (? & [=] & _).
Qed.

Lemma validateFile_accepts f :
  ApiService.validateFile (Some f) = ret tt <->
  In (file_type f) ["image/jpeg"; "image/png"; "image/webp"]
  /\ file_size f <= 5 * 1024 * 1024.
Proof.
  unfold ApiService.validateFile.
  destruct (ApiService.includes_str ApiService.ALLOWED_FILE_TYPES (file_type f)) eqn:Hin; cbn.
  - apply includes_str_In in Hin.
    destruct (file_size f >? ApiService.MAX_FILE_SIZE) eqn:Hsz; cbn.
    + rewrite Z.gtb_ltb in Hsz. apply Z.ltb_lt in Hsz. unfold ApiService.MAX_FILE_SIZE in Hsz.
      split; [discriminate | intros [_ ?]; lia].
    + rewrite Z.gtb_ltb in Hsz. apply Z.ltb_ge in Hsz. unfold ApiService.MAX_FILE_SIZE in Hsz.
      split; [intros _; split; [exact Hin | lia] | reflexivity].
  - split; [discriminate|]. intros [Hty _].
    apply (proj2 (includes_str_In ApiService.ALLOWED_FILE_TYPES (file_type f))) in Hty.
    congruence.
Qed.

Lemma provider_calls_analyzer tr :
  provider_calls (map Analyzer tr) = AnalyzerPolicy.creates tr.
Proof.
  induction tr as [|ev tr IH]; [reflexivity|].
  destruct ev; cbn; rewrite IH; reflexivity.
Qed.

(** The route on a request that passes its four checks. *)
Lemma route_accepts world req ct f :
  content_type req = Some ct -> str_includes "multipart/form-data" ct = true ->
  form_file req = Some (Some f) ->
  In (file_type f) ["image/jpeg"; "image/png"; "image/webp"] ->
  file_size f <= 5 * 1024 * 1024 ->
  exists tr v,
    AiAnalyzerService.analyzeImage world
      ("data:" +:+ file_type f +:+ ";base64," +:+ base64 f) 0 = (tr, Ok v)
    /\ POST development base64 world req =
       (LogProcessing f :: map Analyzer tr, {| body := analysis_body v; status := 200 |}).
Proof.
  intros Hct Hmp Hfile Hty Hsz. unfold POST. rewrite Hct, Hmp, Hfile. cbn [negb].
  apply route_includes_str_In in Hty. unfold ALLOWED_FILE_TYPES. rewrite Hty. cbn [negb].
  replace (file_size f >? MAX_FILE_SIZE) with false
    by (symmetry; rewrite Z.gtb_ltb; apply Z.ltb_ge; exact Hsz).
  set (url := "data:" +:+ file_type f +:+ ";base64," +:+ base64 f).
  destruct (analyzer_result world url 0) as [Hs | (rc' & v & _ & _ & Hv)];
    destruct (AiAnalyzerService.analyzeImage world url 0) as [tr r]; cbn in *; subst r;
    eexists _, _; split; reflexivity.
Qed.

Lemma route_rejects_type world req ct f :
  content_type req = Some ct -> str_includes "multipart/form-data" ct = true ->
  form_file req = Some (Some f) ->
  ~ In (file_type f) ["image/jpeg"; "image/png"; "image/webp"] ->
  exists msg, POST development base64 world req =
              ([], {| body := error_body msg; status := 415 |}).
Proof.
  intros Hct Hmp Hfile Hty. unfold POST. rewrite Hct, Hmp, Hfile. cbn [negb].
  destruct (includes_str ALLOWED_FILE_TYPES (file_type f)) eqn:Hin.
  { exfalso. apply Hty, route_includes_str_In, Hin. }
  eexists. reflexivity.
Qed.

Lemma route_rejects_size world req ct f :
  content_type req = Some ct -> str_includes "multipart/form-data" ct = true ->
  form_file req = Some (Some f) ->
  In (file_type f) ["image/jpeg"; "image/png"; "image/webp"] ->
  file_size f > 5 * 1024 * 1024 ->
  POST development base64 world req =
  ([], {| body := error_body "File size too large. Maximum size is 5MB"; status := 413 |}).
Proof.
  intros Hct Hmp Hfile Hty Hsz. unfold POST. rewrite Hct, Hmp, Hfile. cbn [negb].
  apply route_includes_str_In in Hty. unfold ALLOWED_FILE_TYPES. rewrite Hty. cbn [negb].
  replace (file_size f >? MAX_FILE_SIZE) with true
    by (symmetry; rewrite Z.gtb_ltb; apply Z.ltb_lt; unfold MAX_FILE_SIZE; lia).
  reflexivity.
Qed.

(** X5. Once a request passes the four checks of the analyze route (a
    multipart form, a file, an allowed type, at most 5 MiB), the answer
    is always 200 with an analysis, never an error status: the provider
    is called once, twice or three times, and the analysis is either
    what a provider reply passed the checks with or, when the provider
    kept failing, the all-zero sentinel. *)
Theorem accepted_upload_always_gets_200 world req ct f :
  content_type req = Some ct -> str_includes "multipart/form-data" ct = true ->
  form_file req = Some (Some f) ->
  In (file_type f) ["image/jpeg"; "image/png"; "image/webp"] ->
  file_size f <= 5 * 1024 * 1024 ->
  exists tr v,
    POST development base64 world req =
    (LogProcessing f :: tr, {| body := analysis_body v; status := 200 |})
    /\ (1 <= length (provider_calls tr) <= 3)%nat
    /\ (v = AnalyzerPolicy.sentinel
        \/ exists s values,
             prop v "scores" = Some (Some s) /\ Object_values s = Some values
             /\ forall x, In x values -> exists n, x = JNum n /\ AnalyzerPolicy.in_range n).
Proof.
  intros Hct Hmp Hfile Hty Hsz.
  destruct (route_accepts world req ct f Hct Hmp Hfile Hty Hsz) as (tr & v & Hrun & ->).
  exists (map Analyzer tr), v. split; [reflexivity|].
  set (url := "data:" +:+ file_type f +:+ ";base64," +:+ base64 f) in *.
  split.
  - destruct (analyzer_delays world url 0) as (k & Hk & _ & Hc).
    rewrite Hrun in Hc. cbn [fst] in Hc.
    rewrite provider_calls_analyzer, Hc, repeat_length.
    unfold AiAnalyzerService.MAX_RETRIES in Hk. lia.
  - apply (returned_scores_checked world url 0). rewrite Hrun. reflexivity.
Qed.

(** X6. For a request whose form parses, the status of the analyze
    route is decided by the checks alone: 400 when the content type is
    not multipart or the file is missing, 415 for a type outside the
    list, 413 for an allowed type over 5 MiB, and 200 exactly for the
    files that the gateway's validateFile lets through; 500 and 504
    do not occur. *)
Theorem analyze_route_status_table world req fopt :
  form_file req = Some fopt ->
  let st := status (snd (POST development base64 world req)) in
  (st = 400 <-> ~ multipart req \/ fopt = None)
  /\ (st = 415 <->
      multipart req
      /\ exists f, fopt = Some f
           /\ ~ In (file_type f) ["image/jpeg"; "image/png"; "image/webp"])
  /\ (st = 413 <->
      multipart req
      /\ exists f, fopt = Some f
           /\ In (file_type f) ["image/jpeg"; "image/png"; "image/webp"]
           /\ file_size f > 5 * 1024 * 1024)
  /\ (st = 200 <->
      multipart req
      /\ exists f, fopt = Some f /\ ApiService.validateFile (Some f) = ret tt)
  /\ st <> 500 /\ st <> 504.
Proof.
  intros Hfile. cbn zeta.
  destruct (multipart_dec req) as [Hmp|Hmp].
  2:{ assert (Hrun : POST development base64 world req =
                     ([], {| body := error_body "Content type must be multipart/form-data";
                             status := 400 |})).
      { unfold POST. destruct (content_type req) as [ct|] eqn:Hct; [|reflexivity].
        destruct (str_includes "multipart/form-data" ct) eqn:Hin; [|reflexivity].
        exfalso. apply Hmp. exists ct. auto. }
      rewrite Hrun. cbn. repeat split; try discriminate; try tauto. }
  destruct Hmp as (ct & Hct & Hin).
  assert (Hmp : multipart req) by (exists ct; auto).
  destruct fopt as [f|].
  2:{ assert (Hrun : POST development base64 world req =
                     ([], {| body := error_body "No file uploaded"; status := 400 |})).
      { unfold POST. rewrite Hct, Hin, Hfile. reflexivity. }
      rewrite Hrun. cbn. repeat split; try discriminate; auto;
        intros (_ & ? & [=] & _). }
  destruct (in_dec string_dec (file_type f) ["image/jpeg"; "image/png"; "image/webp"])
    as [Hty|Hty].
  - destruct (Z_le_gt_dec (file_size f) (5 * 1024 * 1024)) as [Hsz|Hsz].
    + destruct (route_accepts world req ct f Hct Hin Hfile Hty Hsz) as (tr & v & _ & ->).
      cbn. repeat split; try discriminate; auto.
      * intros [?|[=]]. contradiction.
      * intros (_ & f' & [= <-] & ?). contradiction.
      * intros (_ & f' & [= <-] & _ & ?). lia.
      * exists f. split; [reflexivity|]. apply validateFile_accepts. auto.
    + rewrite (route_rejects_size world req ct f Hct Hin Hfile Hty Hsz). cbn. repeat split; try discriminate; auto.
      * intros [?|[=]]. contradiction.
      * intros (_ & f' & [= <-] & ?). contradiction.
      * exists f. auto.
      * intros (_ & f' & [= <-] & Hv%validateFile_accepts). lia.
  - destruct (route_rejects_type world req ct f Hct Hin Hfile Hty) as (msg & Hrun).
    rewrite Hrun. cbn. repeat split; try discriminate; auto.
    + intros [?|[=]]. contradiction.
    + exists f. auto.
    + intros (_ & f' & [= <-] & ? & _). contradiction.
    + intros (_ & f' & [= <-] & Hv%validateFile_accepts). tauto.
Qed.

End AnalyzeRouteAnswers.

(** ** Further properties of the gateway *)

Section GatewayLoop.
Import ApiService ApiPolicy GatewayPolicy.

Lemma gateway_retry_ind (this : ApiService) (P : nat -> Prop) :
  (forall rc, ((rc < maxRetries this)%nat -> P (S rc)) -> P rc) -> forall rc, P rc.
Proof.
  intros step rc. remember (maxRetries this - rc)%nat as n eqn:Hn.
  revert rc Hn. induction n as [|n IH]; intros rc Hn; apply step; intros Hlt.
  - lia.
  - apply IH. lia.
Qed.

Lemma timed_run_app ms tr1 tr2 :
  timed_run ms tr1 -> timed_run ms tr2 -> timed_run ms (tr1 ++ tr2).
Proof. induction 1; intros H2; cbn; try constructor; auto. Qed.

Section Loop.
Context {A : Type} (this : ApiService) (label : string) (op_try op : nat -> M A).
Hypothesis loop : retry_loop this label op_try op.

(** The three ways a failed attempt goes on. *)
Lemma loop_cases rc tr t :
  op_try rc = (tr, Throw t) ->
  (carries_retryable_status t /\ (rc < maxRetries this)%nat
   /\ op rc = (tr ++ Delay (1000 * (Z.of_nat rc + 1)) :: fst (op (S rc)), snd (op (S rc))))
  \/ (is_abort t /\ op rc = (tr, Throw (new_Error "Request timeout")))
  \/ (~ (carries_retryable_status t /\ (rc < maxRetries this)%nat) /\ ~ is_abort t
      /\ op rc = (tr ++ [LogError label t], Throw (normalizeError t))).
Proof.
  intros Htry. destruct (abort_dec t) as [Hab|Hab].
  { right; left. split; [exact Hab|]. apply (loop_abort _ _ _ _ loop _ _ _ Htry Hab). }
  destruct (carries_dec t) as [Hc|Hc].
  - destruct (Nat.lt_ge_cases rc (maxRetries this)) as [Hlt|Hge].
    + left. split; [exact Hc|]. split; [exact Hlt|].
      destruct Hc as (m & st & -> & Hst).
      apply (loop_retry _ _ _ _ loop _ _ _ Htry); [|exact Hlt].
      apply shouldRetry_spec. exists m, st. auto.
    + right; right. assert (Hno : ~ (carries_retryable_status t /\ (rc < maxRetries this)%nat))
        by (intros [_ ?]; lia).
      split; [exact Hno|]. split; [exact Hab|].
      apply (loop_propagate _ _ _ _ loop _ _ _ Htry Hno Hab).
  - right; right. assert (Hno : ~ (carries_retryable_status t /\ (rc < maxRetries this)%nat))
      by tauto.
    split; [exact Hno|]. split; [exact Hab|].
    apply (loop_propagate _ _ _ _ loop _ _ _ Htry Hno Hab).
Qed.

Lemma loop_ok rc a :
  snd (op rc) = Ok a -> exists rc' tr, (rc <= rc')%nat /\ op_try rc' = (tr, Ok a).
Proof.
  pattern rc. revert rc. apply (gateway_retry_ind this). intros rc IH. cbv beta in *.
  destruct (op_try rc) as [tr [a0|t]] eqn:Htry.
  - rewrite loop, Htry. cbn. intros [= <-]. exists rc, tr. split; [lia | exact Htry].
  - destruct (loop_cases rc tr t Htry) as [(_ & Hlt & ->) | [(_ & ->) | (_ & _ & ->)]];
      cbn [snd]; try discriminate.
    intros Hok. destruct (IH Hlt Hok) as (rc' & tr' & Hle & H).
    exists rc', tr'. split; [lia | exact H].
Qed.

Lemma loop_timed ms :
  (forall rc, timed_run ms (fst (op_try rc))) -> forall rc, timed_run ms (fst (op rc)).
Proof.
  intros Htimed rc. pattern rc. revert rc. apply (gateway_retry_ind this).
  intros rc IH. cbv beta in *.
  specialize (Htimed rc). destruct (op_try rc) as [tr [a0|t]] eqn:Htry; cbn [fst] in Htimed.
  - rewrite loop, Htry. exact Htimed.
  - destruct (loop_cases rc tr t Htry) as [(_ & Hlt & ->) | [(_ & ->) | (_ & _ & ->)]];
      cbn [fst].
    + apply timed_run_app; [exact Htimed|]. constructor. exact (IH Hlt).
    + exact Htimed.
    + apply timed_run_app; [exact Htimed|]. repeat constructor.
Qed.

End Loop.

Lemma analyzeImage_try_ok this world file rc tr a :
  analyzeImage_try this world file rc = (tr, Ok a) ->
  truthy a = true
  /\ exists f r data,
      file = Some f /\ validateFile (Some f) = ret tt
      /\ world rc = Resolves r /\ 200 <= status r <= 299
      /\ payload r = Some data /\ parsedAnalysis data = Some a.
Proof.
  unfold analyzeImage_try. rewrite fetch_cases.
  destruct file as [f|]; [|discriminate].
  destruct (validateFile (Some f)) as [trv [[]|tv]] eqn:Hv.
  2:{ cbn. discriminate. }
  assert (trv = []) as ->.
  { unfold validateFile in Hv. revert Hv.
    destruct (negb _); [discriminate|]. destruct (_ >? _); [discriminate|]. intros [= <-].
    reflexivity. }
  cbn. destruct (world rc) as [|e|r] eqn:Hw; cbn; try discriminate.
  destruct (payload r) as [data|] eqn:Hp; cbn; [|discriminate].
  destruct (ok r) eqn:Hok; cbn; [|discriminate].
  destruct (parsedAnalysis data) as [a0|] eqn:Hpa; cbn; [|discriminate].
  destruct (truthy a0) eqn:Ht; cbn; [|discriminate].
  intros [= _ <-]. split; [exact Ht|]. exists f, r, data.
  unfold ok in Hok. apply andb_prop in Hok as [H1%Z.leb_le H2%Z.leb_le]. auto 10.
Qed.

Lemma sendChatMessage_try_ok this world message context rc tr s :
  sendChatMessage_try this world message context rc = (tr, Ok s) ->
  exists r data,
    world rc = Resolves r /\ 200 <= status r <= 299
    /\ payload r = Some data /\ chat_text data = s.
Proof.
  unfold sendChatMessage_try. rewrite fetch_cases. cbn.
  destruct (world rc) as [|e|r] eqn:Hw; cbn; try discriminate.
  destruct (payload r) as [data|] eqn:Hp; cbn; [|discriminate].
  destruct (ok r) eqn:Hok; cbn; [|discriminate].
  intros [= _ <-]. exists r, data.
  unfold ok in Hok. apply andb_prop in Hok as [H1%Z.leb_le H2%Z.leb_le]. auto.
Qed.

Lemma generateSpeech_try_ok this world text rc tr blob :
  generateSpeech_try this world text rc = (tr, Ok blob) ->
  exists r, world rc = Resolves r /\ 200 <= status r <= 299 /\ payload r = Some blob.
Proof.
  unfold generateSpeech_try. rewrite fetch_cases. cbn.
  destruct (world rc) as [|e|r] eqn:Hw; cbn; try discriminate.
  destruct (ok r) eqn:Hok; cbn; [|discriminate].
  destruct (payload r) as [b|] eqn:Hp; cbn; [|discriminate].
  intros [= _ <-]. exists r.
  unfold ok in Hok. apply andb_prop in Hok as [H1%Z.leb_le H2%Z.leb_le]. auto.
Qed.

(** X7. What a gateway operation returns was read from a response with
    a status from 200 to 299, received by the call or by one of its
    retries: analyzeImage returns the truthy parsedAnalysis of such a
    response (and only for a file that passed validateFile),
    sendChatMessage its text, generateSpeech its blob. *)
Theorem results_come_from_ok_responses (this : ApiService) (retryCount : nat) :
  (forall world file a,
      snd (analyzeImage this world file retryCount) = Ok a ->
      truthy a = true
      /\ exists rc' f r data,
          (retryCount <= rc')%nat
          /\ file = Some f /\ validateFile (Some f) = ret tt
          /\ world rc' = Resolves r /\ 200 <= status r <= 299
          /\ payload r = Some data /\ parsedAnalysis data = Some a)
  /\ (forall world message context s,
      snd (sendChatMessage this world message context retryCount) = Ok s ->
      exists rc' r data,
        (retryCount <= rc')%nat
        /\ world rc' = Resolves r /\ 200 <= status r <= 299
        /\ payload r = Some data /\ chat_text data = s)
  /\ (forall world text blob,
      snd (generateSpeech this world text retryCount) = Ok blob ->
      exists rc' r,
        (retryCount <= rc')%nat
        /\ world rc' = Resolves r /\ 200 <= status r <= 299 /\ payload r = Some blob).
Proof.
  split; [|split].
  - intros world file a Hok.
    destruct (loop_ok _ _ _ _ (analyzeImage_loop this world file) _ _ Hok)
      as (rc' & tr & Hle & Htry).
    destruct (analyzeImage_try_ok _ _ _ _ _ _ Htry) as (Ht & f & r & data & H).
    split; [exact Ht|]. exists rc', f, r, data. split; [exact Hle | exact H].
  - intros world message context s Hok.
    destruct (loop_ok _ _ _ _ (sendChatMessage_loop this world message context) _ _ Hok)
      as (rc' & tr & Hle & Htry).
    destruct (sendChatMessage_try_ok _ _ _ _ _ _ _ Htry) as (r & data & H).
    exists rc', r, data. split; [exact Hle | exact H].
  - intros world text blob Hok.
    destruct (loop_ok _ _ _ _ (generateSpeech_loop this world text) _ _ Hok)
      as (rc' & tr & Hle & Htry).
    destruct (generateSpeech_try_ok _ _ _ _ _ _ Htry) as (r & H).
    exists rc', r. split; [exact Hle | exact H].
Qed.

Ltac timed_cases :=
  repeat match goal with
         | |- context [match ?x with _ => _ end] =>
             lazymatch x with
             | context [match _ with _ => _ end] => fail
             | _ => destruct x; cbn
             end
         end; repeat constructor.

Lemma analyzeImage_try_timed this world file rc :
  timed_run (timeout this) (fst (analyzeImage_try this world file rc)).
Proof.
  unfold analyzeImage_try, validateFile. rewrite fetch_cases.
  destruct file as [f|]; cbn; [|constructor]. timed_cases.
Qed.

Lemma sendChatMessage_try_timed this world message context rc :
  timed_run (timeout this) (fst (sendChatMessage_try this world message context rc)).
Proof. unfold sendChatMessage_try. rewrite fetch_cases. cbn. timed_cases. Qed.

Lemma generateSpeech_try_timed this world text rc :
  timed_run (timeout this) (fst (generateSpeech_try this world text rc)).
Proof. unfold generateSpeech_try. rewrite fetch_cases. cbn. timed_cases. Qed.

(** X8. In every run of a gateway operation, retries included, each
    request is issued right after a timer of [timeout] milliseconds has
    been armed for it, and no timer is armed without a request: every
    attempt gets its own, full timeout window. *)
Theorem every_attempt_has_its_own_timer (this : ApiService) (retryCount : nat) :
  (forall world file,
      timed_run (timeout this) (fst (analyzeImage this world file retryCount)))
  /\ (forall world message context,
      timed_run (timeout this) (fst (sendChatMessage this world message context retryCount)))
  /\ (forall world text,
      timed_run (timeout this) (fst (generateSpeech this world text retryCount))).
Proof.
  split; [|split].
  - intros world file. apply (loop_timed _ _ _ _ (analyzeImage_loop this world file)).
    intros rc. apply analyzeImage_try_timed.
  - intros world msg ctx. apply (loop_timed _ _ _ _ (sendChatMessage_loop this world msg ctx)).
    intros rc. apply sendChatMessage_try_timed.
  - intros world txt. apply (loop_timed _ _ _ _ (generateSpeech_loop this world txt)).
    intros rc. apply generateSpeech_try_timed.
Qed.



Lemma sum_backoff k : forall s,
  2 * fold_right Z.add 0 (map (fun n => 1000 * (Z.of_nat n + 1)) (seq s k)) =
  1000 * Z.of_nat k * (2 * Z.of_nat s + Z.of_nat k + 1).
Proof.
  induction k as [|k IH]; intros s; [cbn; lia|].
  cbn [seq map fold_right]. specialize (IH (S s)). nia.
Qed.

Lemma loop_total_wait {A} this label (op_try op : nat -> M A) :
  retry_loop this label op_try op ->
  (forall rc, delays (fst (op_try rc)) = []) ->
  (forall rc, (length (fetches (fst (op_try rc))) <= 1)%nat) ->
  total_wait (fst (op 0%nat)) <=
  500 * Z.of_nat (maxRetries this) * (Z.of_nat (maxRetries this) + 1).
Proof.
  intros Hloop Hd Hf.
  destruct (loop_delays this label op_try op Hloop Hd Hf _ 0%nat eq_refl)
    as (k & Hk & Hdel & _).
  unfold total_wait. rewrite Hdel. pose proof (sum_backoff k 0) as Hsum.
  rewrite Nat.sub_0_r in Hk. nia.
Qed.

(** X11. The time a call of a gateway operation spends waiting between
    attempts is at most 500 * maxRetries * (maxRetries + 1) ms in all
    (6 seconds for the default of 3 retries), whatever the backend
    answers. *)
Theorem total_backoff_is_bounded (this : ApiService) :
  let bound := 500 * Z.of_nat (maxRetries this) * (Z.of_nat (maxRetries this) + 1) in
  (forall world file, total_wait (fst (analyzeImage this world file 0)) <= bound)
  /\ (forall world message context,
      total_wait (fst (sendChatMessage this world message context 0)) <= bound)
  /\ (forall world text, total_wait (fst (generateSpeech this world text 0)) <= bound).
Proof.
  cbn zeta. split; [|split].
  - intros world file.
    apply (loop_total_wait this _ _ _ (analyzeImage_loop this world file));
      intros rc; apply analyzeImage_try_trace.
  - intros world msg ctx.
    apply (loop_total_wait this _ _ _ (sendChatMessage_loop this world msg ctx));
      intros rc; apply sendChatMessage_try_trace.
  - intros world txt.
    apply (loop_total_wait this _ _ _ (generateSpeech_loop this world txt));
      intros rc; apply generateSpeech_try_trace.
Qed.

End GatewayLoop.

(** ** The text-to-speech route *)

Section TtsAnswers.
Import TtsRoute TtsPost.

Lemma getAudioBuffer_whole (stream : ReadableStream) :
  getAudioBuffer stream = Some (concat stream).
Proof.
  unfold getAudioBuffer, Uint8Array_new. rewrite read_all_app, total_length. cbn [app].
  apply (copy_chunks_fills stream []). apply length_replicate.
Qed.

Lemma length_concat_sum (stream : ReadableStream) :
  length (concat stream) = list_sum (map (@length Byte.byte) stream).
Proof.
  induction stream as [|chunk rest IH]; [reflexivity|].
  cbn. rewrite length_app, IH. reflexivity.
Qed.

(** X12. The speech route answers with the whole audio or with nothing
    of it: when the request body parses and the provider hands out a
    stream, the body of the answer is every chunk of the stream in
    order and Content-Length is the decimal total of the chunk sizes;
    in every other case (unparseable body, provider failure, no
    stream) the answer is the JSON error "Failed to generate speech"
    with status 500. *)
Theorem tts_route_answers json outcome :
  (exists text stream,
      json = Some text /\ outcome = SpeakResolves (Some stream)
      /\ snd (POST json outcome) =
         Audio (concat stream)
           [("Content-Type", "audio/wav");
            ("Content-Length", pretty (list_sum (map (@length Byte.byte) stream)))])
  \/ ((json = None \/ (exists m, outcome = SpeakRejects m) \/ outcome = SpeakResolves None)
      /\ snd (POST json outcome) = JsonError "Failed to generate speech" 500).
Proof.
  destruct json as [text|]; [|right; split; [left|]; reflexivity].
  destruct outcome as [m|[stream|]]; cbn.
  - right. split; [|reflexivity]. right; left. exists m. reflexivity.
  - left. exists text, stream. rewrite getAudioBuffer_whole, length_concat_sum. auto.
  - right. split; [|reflexivity]. auto.
Qed.

End TtsAnswers.

(** ** Typed replies of the provider *)

Section TypedReplies.
Import OpenAI AiAnalyzerService AnalyzerPolicy AnalyzerReplies.

Lemma in_range_dec n : in_range n \/ ~ in_range n.
Proof.
  destruct (score_ok (JNum n)) eqn:H.
  - left. apply score_ok_spec in H as (n' & [= <-] & Hn). exact Hn.
  - right. intros Hn. assert (score_ok (JNum n) = true) by (apply score_ok_spec; eauto).
    congruence.
Qed.

Lemma score_ok_num n : score_ok (JNum n) = true <-> in_range n.
Proof.
  rewrite score_ok_spec. split.
  - intros (n' & [= <-] & Hn). exact Hn.
  - intros Hn. eauto.
Qed.

Lemma typed_scores_valid a :
  forallb score_ok [JNum (lighting (scores a)); JNum (space (scores a));
                    JNum (flow (scores a)); JNum (accessibility (scores a))] = true
  <-> scores_in_range a.
Proof.
  unfold scores_in_range. cbn [forallb]. rewrite !andb_true_iff, !score_ok_num. tauto.
Qed.

(** X13. A reply whose JSON is a well-typed analysis (four numeric
    scores, a list of recommendations) is returned unchanged, after one
    provider call and with nothing logged, exactly when its four scores
    are in [0, 100]; when one of them is not, the call logs "Scores are
    outside valid range (0-100)" and returns the all-zero sentinel
    instead. *)
Theorem typed_reply_is_returned_iff_in_range world imageUrl retryCount r c rest t a :
  world retryCount = ProviderResolves r -> choices r = Some (c :: rest) ->
  finish_reason c <> "length" -> finish_reason c <> "content_filter" ->
  content (message c) = Some t -> raw t <> "" -> parsed t = Some (analysis_json a) ->
  (scores_in_range a ->
   analyzeImage world imageUrl retryCount =
   ([Create (the_request imageUrl)], Ok (analysis_json a)))
  /\ (~ scores_in_range a ->
      analyzeImage world imageUrl retryCount =
      ([Create (the_request imageUrl);
        LoggerError (Error_ "Error" "Scores are outside valid range (0-100)")],
       Ok sentinel)).
Proof.
  intros Hw Hc Hlen Hcf Hcontent Hraw Hparsed.
  assert (Htry : analyzeImage_try world imageUrl retryCount =
                 ([Create (the_request imageUrl)],
                  if forallb score_ok [JNum (lighting (scores a)); JNum (space (scores a));
                                       JNum (flow (scores a));
                                       JNum (accessibility (scores a))]
                  then Ok (analysis_json a)
                  else Throw (Error_ "Error" "Scores are outside valid range (0-100)"))).
  { unfold analyzeImage_try, create. rewrite Hw. cbn -[forallb analysis_json].
    rewrite Hc. cbn -[forallb analysis_json].
    destruct (String.eqb_spec (finish_reason c) "length") as [|_]; [contradiction|].
    destruct (String.eqb_spec (finish_reason c) "content_filter") as [|_]; [contradiction|].
    rewrite Hcontent.
    destruct (String.eqb_spec (raw t) "") as [|_]; [contradiction|].
    rewrite Hparsed. unfold get, areaScoreValid. cbn -[forallb].
    destruct (forallb score_ok _); reflexivity. }
  split.
  - intros Hin. apply typed_scores_valid in Hin. rewrite Hin in Htry.
    rewrite analyzer_loop, Htry. reflexivity.
  - intros Hout.
    destruct (forallb score_ok _) eqn:Hall; [apply typed_scores_valid in Hall; contradiction|].
    rewrite (analyzer_degrade _ _ _ _ _ Htry); [reflexivity|].
    intros [(? & ? & [=] & _) _].
Qed.

(** X14. Every value that analyzeImage returns, the sentinel included,
    has a truthy scores member and a truthy recommendations member, and
    every score its scores object holds is a number in [0, 100]; so when
    that object names lighting, space, flow and accessibility, each of
    the four is such a number. *)
Theorem returned_analysis_is_checked world imageUrl retryCount v :
  snd (analyzeImage world imageUrl retryCount) = Ok v ->
  exists s rs values,
    prop v "scores" = Some (Some s) /\ truthy s = true
    /\ prop v "recommendations" = Some (Some rs) /\ truthy rs = true
    /\ Object_values s = Some values
    /\ (forall x, In x values -> exists n, x = JNum n /\ in_range n)
    /\ (forall members,
        s = JObj members ->
        (forall k, In k ["lighting"; "space"; "flow"; "accessibility"] ->
                   assoc k members <> None) ->
        four_scores_in_range v).
Proof.
  intros Hv.
  assert (Hchecked : exists s rs values,
             prop v "scores" = Some (Some s) /\ truthy s = true
             /\ prop v "recommendations" = Some (Some rs) /\ truthy rs = true
             /\ Object_values s = Some values
             /\ forall x, In x values -> exists n, x = JNum n /\ in_range n).
  { destruct (analyzer_result world imageUrl retryCount)
      as [Hs | (rc' & v' & _ & Htry & Hres)].
    - assert (v = sentinel) as -> by congruence.
      eexists _, _, _. repeat (split; [reflexivity|]).
      intros x [<-|[<-|[<-|[<-|[]]]]]; (eexists; split; [reflexivity|]);
        exists 0%Q; (split; [reflexivity|]); split; discriminate.
    - assert (v' = v) as -> by congruence.
      destruct (analyzeImage_try world imageUrl rc') as [tr r] eqn:E. cbn in Htry. subst r.
      exact (try_ok_checked _ _ _ _ _ E). }
  destruct Hchecked as (s & rs & values & Hs & Hts & Hr & Htr & Hvals & Hall).
  exists s, rs, values. repeat (split; [assumption|]).
  intros members -> Hkeys. exists (JObj members). split; [exact Hs|]. intros k Hk.
  specialize (Hkeys k Hk). destruct (assoc k members) as [x|] eqn:Hx; [|congruence].
  cbn in Hvals. injection Hvals as <-.
  destruct (Hall x (assoc_In _ _ _ Hx)) as (n & -> & Hn).
  exists n. cbn. rewrite Hx. auto.
Qed.

Lemma typed_reply_is_returned_iff_in_range_witness :
  analyzeImage (fun _ => ProviderResolves (reply_of a_fair_plan)) a_png_url 0 =
  ([Create (the_request a_png_url)], Ok (analysis_json a_fair_plan)).
Proof.
  refine (proj1 (typed_reply_is_returned_iff_in_range
                   (fun _ => ProviderResolves (reply_of a_fair_plan)) a_png_url 0
                   (reply_of a_fair_plan) _ [] _ a_fair_plan
                   eq_refl eq_refl _ _ eq_refl _ eq_refl) _).
  - discriminate.
  - discriminate.
  - discriminate.
  - repeat split; eexists; (split; [reflexivity|]); split; discriminate.
Defined.

Lemma returned_analysis_is_checked_witness :
  exists s rs values,
    prop (analysis_json a_fair_plan) "scores" = Some (Some s) /\ truthy s = true
    /\ prop (analysis_json a_fair_plan) "recommendations" = Some (Some rs)
    /\ truthy rs = true
    /\ Object_values s = Some values
    /\ (forall x, In x values -> exists n, x = JNum n /\ in_range n)
    /\ (forall members,
        s = JObj members ->
        (forall k, In k ["lighting"; "space"; "flow"; "accessibility"] ->
                   assoc k members <> None) ->
        four_scores_in_range (analysis_json a_fair_plan)).
Proof.
  apply (returned_analysis_is_checked
           (fun _ => ProviderResolves (reply_of a_fair_plan)) a_png_url 0
           (analysis_json a_fair_plan)).
  reflexivity.
Defined.

End TypedReplies.

(** ** The upload area in front of the gateway *)

Section UploadAreaChecks.
Import ApiService.

Lemma area_accepts f :
  fst (UploadArea.validateFile UploadArea.defaults f) = true <->
  In (file_type f) ["image/jpeg"; "image/png"; "application/pdf"]
  /\ file_size f <= 10 * 1024 * 1024.
Proof.
  unfold UploadArea.validateFile, UploadArea.defaults. cbn [UploadArea.allowedTypes UploadArea.maxSizeMB].
  destruct (existsb (String.eqb (file_type f)) _) eqn:Hin; cbn [negb].
  - apply existsb_exists in Hin as (x & Hx & ->%String.eqb_eq).
    destruct (file_size f >? 10 * 1024 * 1024) eqn:Hsz; cbn [fst].
    + rewrite Z.gtb_ltb in Hsz. apply Z.ltb_lt in Hsz. split; [discriminate | intros [_ ?]; lia].
    + rewrite Z.gtb_ltb in Hsz. apply Z.ltb_ge in Hsz. split; [auto | reflexivity].
  - cbn [fst]. split; [discriminate|]. intros [Hty _].
    assert (existsb (String.eqb (file_type f))
              ["image/jpeg"; "image/png"; "application/pdf"] = true); [|congruence].
    apply existsb_exists. exists (file_type f). split; [exact Hty | apply String.eqb_refl].
Qed.

(** X15. The upload area, with the defaults the page leaves in place,
    and the gateway do not accept the same files: a file passes both
    exactly when it is a JPEG or PNG of at most 5 MiB; a PDF of at most
    10 MiB, and a JPEG or PNG between 5 and 10 MiB, pass the area and
    are then refused by validateFile of the gateway; a WebP image, which
    the gateway would take, is refused by the area with the message
    "Invalid file type. Please upload jpeg, png, pdf files.". *)
Theorem upload_area_and_gateway_disagree (f : File) :
  (fst (UploadArea.validateFile UploadArea.defaults f) = true
   /\ validateFile (Some f) = ret tt
   <-> (file_type f = "image/jpeg" \/ file_type f = "image/png")
       /\ file_size f <= 5 * 1024 * 1024)
  /\ (file_type f = "application/pdf" -> file_size f <= 10 * 1024 * 1024 ->
      UploadArea.validateFile UploadArea.defaults f = (true, None)
      /\ validateFile (Some f) =
         throw (new_Error "Unsupported file type. Please upload JPEG, PNG or WebP"))
  /\ ((file_type f = "image/jpeg" \/ file_type f = "image/png") ->
      5 * 1024 * 1024 < file_size f <= 10 * 1024 * 1024 ->
      UploadArea.validateFile UploadArea.defaults f = (true, None)
      /\ validateFile (Some f) = throw (new_Error "File is too large. Maximum size is 5MB"))
  /\ (file_type f = "image/webp" ->
      UploadArea.validateFile UploadArea.defaults f =
      (false, Some "Invalid file type. Please upload jpeg, png, pdf files.")
      /\ (file_size f <= 5 * 1024 * 1024 -> validateFile (Some f) = ret tt)).
Proof.
  split; [|split; [|split]].
  - rewrite area_accepts, validateFile_accepts. cbn [In]. split.
    + intros [[Ha Hsa] [Hg Hsg]]. split; [|exact Hsg].
      destruct Ha as [Ha|[Ha|[Ha|[]]]]; auto.
      rewrite <- Ha in Hg. destruct Hg as [Hg|[Hg|[Hg|[]]]]; discriminate Hg.
    + intros [Hty Hsz]. split; (split; [|lia]); destruct Hty as [-> | ->]; auto.
  - intros Hty Hsz. unfold UploadArea.validateFile, validateFile. rewrite Hty. cbn.
    replace (file_size f >? 10 * 1024 * 1024) with false
      by (symmetry; rewrite Z.gtb_ltb; apply Z.ltb_ge; lia).
    split; reflexivity.
  - intros Hty [Hlo Hhi]. unfold UploadArea.validateFile, validateFile.
    destruct Hty as [-> | ->]; cbn.
    all: replace (file_size f >? 10 * 1024 * 1024) with false
      by (symmetry; rewrite Z.gtb_ltb; apply Z.ltb_ge; lia).
    all: replace (file_size f >? MAX_FILE_SIZE) with true
      by (symmetry; rewrite Z.gtb_ltb; apply Z.ltb_lt; unfold MAX_FILE_SIZE; lia).
    all: split; reflexivity.
  - intros Hty. split.
    + unfold UploadArea.validateFile. rewrite Hty. reflexivity.
    + intros Hsz. apply validateFile_accepts. rewrite Hty. cbn. auto.
Qed.

End UploadAreaChecks.

(** ** From the page to the provider and back *)

Section PageUpload.
Import ApiService Page Deployment.
Variable converted_gt0 : Json -> bool.

Lemma failing_provider_gives_sentinel world imageUrl :
  (forall rc, (exists e, world rc = AiAnalyzerService.ProviderRejects e)
              \/ (exists r, world rc = AiAnalyzerService.ProviderResolves r
                            /\ AnalyzerPolicy.invalid_response r)) ->
  snd (AiAnalyzerService.analyzeImage world imageUrl 0) = Ok AnalyzerPolicy.sentinel.
Proof.
  intros Hfail.
  destruct (analyzer_result world imageUrl 0) as [Hs | (rc' & v & _ & Htry & _)];
    [exact Hs|].
  exfalso. destruct (Hfail rc') as [(e & Hw) | (r & Hw & Hinv)].
  - unfold AiAnalyzerService.analyzeImage_try, AiAnalyzerService.create in Htry.
    rewrite Hw in Htry. discriminate Htry.
  - destruct (invalid_response_throws world imageUrl rc' r Hw Hinv) as (n & m & Hthrow).
    rewrite Hthrow in Htry. discriminate Htry.
Qed.

(** The gateway in front of the analyze route: one request, and the
    analysis of the route as its result. *)
Lemma gateway_over_route this development base64 providers f :
  In (file_type f) ["image/jpeg"; "image/png"; "image/webp"] ->
  file_size f <= 5 * 1024 * 1024 ->
  forall v,
    snd (AiAnalyzerService.analyzeImage (providers 0%nat)
           ("data:" +:+ file_type f +:+ ";base64," +:+ base64 f) 0) = Ok v ->
    truthy (transport v) = true ->
    exists req,
      analyzeImage this (analyze_backend development base64 providers f) (Some f) 0 =
      ([SetTimeout (timeout this); Fetch req; ClearTimeout], Ok (transport v)).
Proof.
  intros Hty Hsz v Hv Htruthy.
  destruct (route_accepts development base64 (providers 0%nat) (analyze_request f) _ f
              eq_refl eq_refl eq_refl Hty Hsz) as (tr & v' & Hrun & Hpost).
  rewrite Hrun in Hv. cbn in Hv. injection Hv as ->.
  eexists. rewrite analyzeImage_loop. unfold analyzeImage_try.
  rewrite (proj2 (validateFile_accepts f) (conj Hty Hsz)).
  unfold analyze_backend. rewrite Hpost. cbn -[transport]. rewrite Htruthy. reflexivity.
Qed.

(** X16. End to end, a provider outage looks like a picture that is not
    a floor plan.  When the gateway reaches the analyze route and every
    provider call made for an accepted file fails (it is refused, or its
    reply is unusable), handleUpload ends with the rejection toast and
    the page back in its initial upload state, after a single request. *)
Theorem provider_outage_is_shown_as_not_a_floor_plan
    this development base64 providers st url f :
  In (file_type f) ["image/jpeg"; "image/png"; "image/webp"] ->
  file_size f <= 5 * 1024 * 1024 ->
  (forall rc, (exists e, providers 0%nat rc = AiAnalyzerService.ProviderRejects e)
              \/ (exists r, providers 0%nat rc = AiAnalyzerService.ProviderResolves r
                            /\ AnalyzerPolicy.invalid_response r)) ->
  let run :=
    handleUpload converted_gt0 st url
      (fun file => analyzeImage this (analyze_backend development base64 providers file)
                     (Some file) 0)
      (Some f) in
  snd run = {| uploadedFile := None; imageUrl := None; activeTab := upload_tab;
               analysis := None; isAnalyzing := false; isUploaded := false |}
  /\ toasts (fst run) =
     ["The uploaded image is not a floor plan. Please try again with a valid floor plan image."]
  /\ length (requests (fst run)) = 1%nat.
Proof.
  intros Hty Hsz Hfail. cbn zeta.
  pose proof (failing_provider_gives_sentinel (providers 0%nat)
                ("data:" +:+ file_type f +:+ ";base64," +:+ base64 f) Hfail) as Hs.
  destruct (gateway_over_route this development base64 providers f Hty Hsz _ Hs eq_refl)
    as (req & Hgw).
  unfold handleUpload. rewrite Hgw. cbn.
  destruct (String.eqb url ""); cbn; auto.
Qed.

(** X17. A file that validateFile of the gateway refuses (the upload
    area lets some through: a PDF, an image between 5 and 10 MiB) is not
    sent anywhere, and the user is not told: handleUpload issues no
    request and no toast, and leaves the page marked as uploaded, with
    the preview URL set, the previous analysis and tab untouched and
    isAnalyzing off. *)
Theorem refused_file_is_dropped_silently this world st url f :
  validateFile (Some f) <> ret tt ->
  let run := handleUpload converted_gt0 st url
               (fun file => analyzeImage this world (Some file) 0) (Some f) in
  snd run = {| uploadedFile := Some f; imageUrl := Some url; activeTab := activeTab st;
               analysis := analysis st; isAnalyzing := false; isUploaded := true |}
  /\ toasts (fst run) = [] /\ requests (fst run) = [].
Proof.
  intros Hrefused. cbn zeta.
  assert (Hgw : exists t, analyzeImage this world (Some f) 0 =
                          ([LogError "Image analysis error:" t], Throw t)).
  { rewrite analyzeImage_loop. unfold analyzeImage_try.
    unfold validateFile in *.
    destruct (negb _); [eexists; reflexivity|].
    destruct (_ >? _); [eexists; reflexivity|]. contradiction. }
  destruct Hgw as (t & Hgw). unfold handleUpload. rewrite Hgw. cbn. auto.
Qed.

End PageUpload.

(** ** From the chat hook to the provider *)

Section ChatSend.
Import ApiService ApiPolicy ChatHook.

(** X18. sendMessage does nothing without an analysis.  With one, it
    appends exactly two messages to the history, the user's question and
    then an assistant message whose text is the gateway's answer, or the
    fixed apology when the gateway throws, and turns isTyping off; every
    request it causes carries the question, the analysis, and at most
    the 5 latest messages of the history as it was before the question
    (the question itself is not among them). *)
Theorem sendMessage_appends_question_and_answer this world st now message :
  sendMessage None st now (fun m c => sendChatMessage this world m c 0) message = ([], st)
  /\ forall a,
      let gateway_run :=
        sendChatMessage this world message
          {| analysis := a; previousMessages := messages st |} 0 in
      let run :=
        sendMessage (Some a) st now (fun m c => sendChatMessage this world m c 0) message in
      (exists question answer,
          messages (snd run) = messages st ++ [question; answer]
          /\ sender question = user /\ text question = message
          /\ sender answer = assistant
          /\ (forall s, snd gateway_run = Ok s -> text answer = s)
          /\ (forall t, snd gateway_run = Throw t ->
              text answer = "Sorry, I couldn't process your request. Please try again."))
      /\ isTyping (snd run) = false
      /\ (forall req,
          In req (fetches (fst run)) ->
          exists sent earlier,
            body req = Json_chat message a sent
            /\ messages st = earlier ++ sent
            /\ length sent = Nat.min 5 (length (messages st))).
Proof.
  split; [reflexivity|]. intros a. cbn zeta. unfold sendMessage.
  set (ctx := {| analysis := a; previousMessages := messages st |}).
  pose proof (loop_fetches _ _ _ _ (sendChatMessage_loop this world message ctx)
                (maxRetries this - 0)%nat 0%nat) as Hfetches.
  destruct (sendChatMessage this world message ctx 0) as [tr r] eqn:Hrun. cbn [fst snd] in *.
  split; [|split; [reflexivity|]].
  - rewrite <- app_assoc. cbn [app]. eexists _, _. split; [reflexivity|].
    destruct r as [s|t]; cbn; repeat split; auto; intros ? [=]; congruence.
  - intros req Hin.
    destruct (Hfetches req eq_refl Hin) as (rc' & Hin').
    destruct (sendChatMessage_try_fetches this world message ctx rc')
      as (tail & Heq & Htail).
    rewrite Heq in Hin'. cbn in Hin'. rewrite Htail in Hin'.
    destruct Hin' as [<-|[]]. cbn [body].
    destruct (slice_last_spec 5 (messages st)) as (Hlen & earlier & Hsplit).
    exists (slice_last 5 (messages st)), earlier. auto.
Qed.

End ChatSend.

(** ** Retries of the gateway on top of retries of the chat service *)

Section Amplification.
Import ApiService ApiPolicy ChatDeployment.
Variable JSON_stringify : Json -> string.
Variable providers : nat -> AiChatService.World.

Lemma chat_service_exhausts world message context :
  always_overloaded world ->
  exists tr t,
    AiChatService.generateResponse JSON_stringify world message context 0 = (tr, Throw t)
    /\ length (ChatPolicy.creates tr) = 4%nat.
Proof.
  intros Hover.
  assert (Htry : forall rc, exists t,
             AiChatService.generateResponse_try JSON_stringify world message context rc =
             ([AiChatService.Create (AiChatService.request JSON_stringify message context)],
              Throw t)
             /\ ChatRetry.chat_retryable t).
  { intros rc. destruct (Hover rc) as (m & st & Hw & Hst).
    exists (OpenAI.APIError (Some st) m). split.
    - unfold AiChatService.generateResponse_try, AiChatService.create. rewrite Hw. reflexivity.
    - exists m, st. auto. }
  destruct (Htry 0%nat) as (t0 & H0 & Hr0). destruct (Htry 1%nat) as (t1 & H1 & Hr1).
  destruct (Htry 2%nat) as (t2 & H2 & Hr2). destruct (Htry 3%nat) as (t3 & H3 & Hr3).
  eexists _, t3.
  rewrite (chat_retry _ _ _ _ _ _ _ H0 Hr0) by lia.
  rewrite (chat_retry _ _ _ _ _ _ _ H1 Hr1) by lia.
  rewrite (chat_retry _ _ _ _ _ _ _ H2 Hr2) by lia.
  rewrite (chat_rethrow _ _ _ _ _ _ _ H3) by (intros [_ ?]; lia).
  split; reflexivity.
Qed.

Lemma route_under_overload message context n :
  message <> "" -> always_overloaded (providers n) ->
  snd (served JSON_stringify providers message context n) =
  {| ChatRoute.body := ChatRoute.error_body "Failed to process chat message.";
     ChatRoute.status := 500 |}
  /\ length (ChatRoute.provider_calls (fst (served JSON_stringify providers message context n)))
     = 4%nat.
Proof.
  intros Hne Hover. unfold served, ChatRoute.POST, chat_request.
  cbn [ChatRoute.message ChatRoute.context].
  destruct (String.eqb_spec message "") as [|_]; [contradiction|].
  destruct (chat_service_exhausts (providers n) message
              {| AiChatService.analysis := Deployment.transport (analysis context);
                 AiChatService.previousMessages :=
                   map (fun m => {| AiChatService.sender := sender m;
                                    AiChatService.text := text m |})
                       (slice_last 5 (previousMessages context)) |} Hover)
    as (tr & t & -> & Hcalls).
  cbn. split; [reflexivity|].
  rewrite provider_calls_app, provider_calls_service, length_app, Hcalls. reflexivity.
Qed.

(** A loop whose every attempt ends in the same retryable failure, after
    one request, uses all its retries. *)
Lemma loop_exhausts {A} this label (op_try op : nat -> M A) m st :
  retry_loop this label op_try op ->
  retryable_status st ->
  (forall rc, exists tr, op_try rc = (tr, Throw (ThrownError (ApiError m st)))
                         /\ length (fetches tr) = 1%nat) ->
  forall rc, (rc <= maxRetries this)%nat ->
    length (fetches (fst (op rc))) = (maxRetries this - rc + 1)%nat
    /\ snd (op rc) = Throw (ThrownError (ApiError m st)).
Proof.
  intros Hloop Hst Htry rc. pattern rc. revert rc.
  apply (gateway_retry_ind this). intros rc IH Hle. cbv beta in *.
  destruct (Htry rc) as (tr & Hrc & Hone).
  destruct (Nat.lt_ge_cases rc (maxRetries this)) as [Hlt|Hge].
  - rewrite (loop_retry _ _ _ _ Hloop _ _ _ Hrc); [| |exact Hlt].
    2:{ apply shouldRetry_spec. exists m, st. auto. }
    destruct (IH Hlt) as [Hn Hs]; [lia|]. cbn [fst snd].
    rewrite fetches_app, length_app, Hone. cbn [fetches]. rewrite Hn. split; [lia | exact Hs].
  - rewrite (loop_propagate _ _ _ _ Hloop _ _ _ Hrc).
    + cbn [fst snd]. rewrite fetches_app, length_app, Hone. cbn. split; [lia | reflexivity].
    + intros [_ ?]. lia.
    + intros (e & [= <-] & He). discriminate He.
Qed.

Lemma list_sum_bound (f : nat -> nat) (b : nat) l :
  (forall n, (f n <= b)%nat) -> (list_sum (map f l) <= b * length l)%nat.
Proof.
  intros Hf. induction l as [|x l IH]; [cbn; lia|].
  cbn [map list_sum fold_right length]. rewrite Nat.mul_succ_r. specialize (Hf x).
  unfold list_sum in IH. lia.
Qed.

Lemma list_sum_const (f : nat -> nat) (b : nat) l :
  (forall n, f n = b) -> list_sum (map f l) = (b * length l)%nat.
Proof.
  intros Hf. induction l as [|x l IH]; [cbn; lia|].
  cbn [map list_sum fold_right length]. rewrite Nat.mul_succ_r, Hf.
  unfold list_sum in IH. lia.
Qed.

(** X19. Retries multiply across the two layers.  One sendChatMessage
    whose requests reach the chat route causes at most
    4 * (maxRetries + 1) provider calls; and when the provider refuses
    every call with 429 or a 5xx status, exactly that many are made (16
    with the default of 3 retries): each request costs the route its 4
    calls and is answered 500, which the gateway takes as retryable
    until its own retries are used up, and then throws. *)
Theorem chat_retries_multiply this message context :
  (provider_calls_for JSON_stringify providers this message context
   <= 4 * (maxRetries this + 1))%nat
  /\ (message <> "" -> (forall n, always_overloaded (providers n)) ->
      provider_calls_for JSON_stringify providers this message context
      = (4 * (maxRetries this + 1))%nat
      /\ snd (sendChatMessage this (chat_backend JSON_stringify providers message context)
                message context 0)
         = Throw (ThrownError (ApiError "Failed to process chat message." 500))).
Proof.
  unfold provider_calls_for. split.
  - set (w := chat_backend JSON_stringify providers message context).
    destruct (loop_delays this _ _ _ (sendChatMessage_loop this w message context)
                (fun rc => proj1 (sendChatMessage_try_trace this w message context rc))
                (fun rc => proj2 (sendChatMessage_try_trace this w message context rc))
                _ 0%nat eq_refl) as (k & Hk & _ & Hf).
    etransitivity.
    + apply (list_sum_bound _ 4). intros n. apply chat_route_calls.
    + rewrite length_seq. lia.
  - intros Hne Hover.
    set (w := chat_backend JSON_stringify providers message context).
    assert (Htry : forall rc, exists tr,
               sendChatMessage_try this w message context rc =
               (tr, Throw (ThrownError (ApiError "Failed to process chat message." 500)))
               /\ length (fetches tr) = 1%nat).
    { intros rc. unfold sendChatMessage_try, w, chat_backend.
      rewrite (proj1 (route_under_overload message context rc Hne (Hover rc))).
      eexists. split; reflexivity. }
    destruct (loop_exhausts this _ _ _ _ 500
                (sendChatMessage_loop this w message context)
                ltac:(unfold retryable_status; auto) Htry 0%nat ltac:(lia)) as [Hn Hs].
    split; [|exact Hs]. rewrite Hn.
    rewrite (list_sum_const _ 4).
    + rewrite length_seq. lia.
    + intros n. apply (route_under_overload message context n Hne (Hover n)).
Qed.

End Amplification.

(** ** The further statements at concrete inputs *)

Section FurtherWitnesses.
Import Scenarios.

Lemma accepted_upload_always_gets_200_witness :
  exists tr v,
    AnalyzeRoute.POST false (fun _ => "QUJD") AnalyzerPolicy.rate_limited
      (AnalyzeRoutePolicy.upload_of AnalyzeRoutePolicy.exactly_5_mib) =
    (AnalyzeRoute.LogProcessing AnalyzeRoutePolicy.exactly_5_mib :: tr,
     {| AnalyzeRoute.body := AnalyzeRoute.analysis_body v; AnalyzeRoute.status := 200 |})
    /\ (1 <= length (AnalyzeRoutePolicy.provider_calls tr) <= 3)%nat
    /\ (v = AnalyzerPolicy.sentinel
        \/ exists s values,
             prop v "scores" = Some (Some s) /\ Object_values s = Some values
             /\ forall x, In x values -> exists n, x = JNum n /\ AnalyzerPolicy.in_range n).
Proof.
  apply (accepted_upload_always_gets_200 false (fun _ => "QUJD") AnalyzerPolicy.rate_limited
           (AnalyzeRoutePolicy.upload_of AnalyzeRoutePolicy.exactly_5_mib)
           "multipart/form-data; boundary=----form" AnalyzeRoutePolicy.exactly_5_mib).
  - reflexivity.
  - reflexivity.
  - reflexivity.
  - cbn. auto.
  - cbn. lia.
Defined.

Lemma analyze_route_status_table_witness :
  AnalyzeRoute.status
    (snd (AnalyzeRoute.POST false (fun _ => "QUJD") AnalyzerPolicy.rate_limited
            (AnalyzeRoutePolicy.upload_of AnalyzeRoutePolicy.exactly_5_mib))) <> 500.
Proof.
  apply (analyze_route_status_table false (fun _ => "QUJD") AnalyzerPolicy.rate_limited
           (AnalyzeRoutePolicy.upload_of AnalyzeRoutePolicy.exactly_5_mib)
           (Some AnalyzeRoutePolicy.exactly_5_mib) eq_refl).
Defined.

Lemma results_come_from_ok_responses_witness :
  truthy AnalyzerPolicy.sentinel = true
  /\ exists rc' f r data,
      (0 <= rc')%nat
      /\ Some ApiPolicy.a_jpeg = Some f /\ ApiService.validateFile (Some f) = ret tt
      /\ GatewayPolicy.served AnalyzerPolicy.sentinel rc' = ApiService.Resolves r
      /\ 200 <= ApiService.status r <= 299
      /\ ApiService.payload r = Some data
      /\ ApiService.parsedAnalysis data = Some AnalyzerPolicy.sentinel.
Proof.
  apply (proj1 (results_come_from_ok_responses ApiPolicy.service3 0)
           (GatewayPolicy.served AnalyzerPolicy.sentinel) (Some ApiPolicy.a_jpeg)).
  reflexivity.
Defined.


Lemma provider_outage_is_shown_as_not_a_floor_plan_witness :
  let run :=
    Page.handleUpload no_conversion fresh_page a_blob_url
      (fun file =>
         ApiService.analyzeImage ApiPolicy.service3
           (Deployment.analyze_backend false (fun _ => "QUJD")
              (fun _ => AnalyzerPolicy.rate_limited) file)
           (Some file) 0)
      (Some ApiPolicy.a_jpeg) in
  snd run = fresh_page
  /\ Page.toasts (fst run) =
     ["The uploaded image is not a floor plan. Please try again with a valid floor plan image."]
  /\ length (Page.requests (fst run)) = 1%nat.
Proof.
  apply (provider_outage_is_shown_as_not_a_floor_plan no_conversion ApiPolicy.service3
           false (fun _ => "QUJD") (fun _ => AnalyzerPolicy.rate_limited)
           fresh_page a_blob_url ApiPolicy.a_jpeg).
  - cbn. auto.
  - cbn. lia.
  - intros rc. left. eexists. reflexivity.
Defined.

Lemma refused_file_is_dropped_silently_witness :
  let run :=
    Page.handleUpload no_conversion fresh_page a_blob_url
      (fun file => ApiService.analyzeImage ApiPolicy.service3 (ApiPolicy.always 200)
                     (Some file) 0)
      (Some a_pdf) in
  snd run = {| Page.uploadedFile := Some a_pdf; Page.imageUrl := Some a_blob_url;
               Page.activeTab := Page.upload_tab; Page.analysis := None;
               Page.isAnalyzing := false; Page.isUploaded := true |}
  /\ Page.toasts (fst run) = [] /\ Page.requests (fst run) = [].
Proof.
  apply (refused_file_is_dropped_silently no_conversion ApiPolicy.service3
           (ApiPolicy.always 200) fresh_page a_blob_url a_pdf).
  discriminate.
Defined.

Lemma chat_retries_multiply_witness :
  ChatDeployment.provider_calls_for (fun _ => "{}") (fun _ => ChatRetry.overloaded)
    ApiPolicy.service3 "hi" ApiPolicy.seven_messages = 16%nat
  /\ snd (ApiService.sendChatMessage ApiPolicy.service3
            (ChatDeployment.chat_backend (fun _ => "{}") (fun _ => ChatRetry.overloaded)
               "hi" ApiPolicy.seven_messages)
            "hi" ApiPolicy.seven_messages 0)
     = Throw (ApiService.ThrownError
                (ApiService.ApiError "Failed to process chat message." 500)).
Proof.
  apply (proj2 (chat_retries_multiply (fun _ => "{}") (fun _ => ChatRetry.overloaded)
                  ApiPolicy.service3 "hi" ApiPolicy.seven_messages)).
  - discriminate.
  - intros n rc. exists "Service unavailable", 503. split; [reflexivity | right; lia].
Defined.

End FurtherWitnesses.
